(** * PicoScope 5000A block-mode example: the control protocol of [main]

    A shallow embedding of [ps5000a_BlockMode_Example.cpp].  The program is a
    linear sequence of calls into the closed vendor driver, each followed by a
    status check.  The driver is an opaque collaborator: it is modelled as an
    arbitrary deterministic function from the history of calls to a reply, and
    [main] runs in a small monad that records every observable event (driver
    calls, console traffic, heap allocation, sleeps) and supports the early
    [return -1] of the source. *)

From Stdlib Require Import Ascii.
From stdpp Require Import base numbers list strings gmap.

Local Open Scope Z_scope.

(** ** Vendor constants and enumerations

    [PicoStatus.h] and [ps5000aApi.h] are vendor headers that are not part of
    the example's source file; the values below are the ones the program
    names.  The proofs only use that [PICO_OK] and
    [PICO_POWER_SUPPLY_NOT_CONNECTED] are different codes. *)

Definition PICO_STATUS := Z.
Definition PICO_OK : PICO_STATUS := 0.
Definition PICO_POWER_SUPPLY_NOT_CONNECTED : PICO_STATUS := 0x119.

Inductive PS5000A_DEVICE_RESOLUTION :=
| PS5000A_DR_8BIT | PS5000A_DR_12BIT | PS5000A_DR_14BIT
| PS5000A_DR_15BIT | PS5000A_DR_16BIT.

Inductive PS5000A_CHANNEL :=
| PS5000A_CHANNEL_A | PS5000A_CHANNEL_B | PS5000A_CHANNEL_C | PS5000A_CHANNEL_D.

Inductive PS5000A_COUPLING := PS5000A_AC | PS5000A_DC.

Inductive PS5000A_RANGE :=
| PS5000A_10MV | PS5000A_20MV | PS5000A_50MV | PS5000A_100MV
| PS5000A_200MV | PS5000A_500MV | PS5000A_1V | PS5000A_2V
| PS5000A_5V | PS5000A_10V | PS5000A_20V | PS5000A_50V.

Inductive PS5000A_RATIO_MODE := PS5000A_RATIO_MODE_NONE.

Inductive PS5000A_THRESHOLD_DIRECTION := PS5000A_RISING | PS5000A_FALLING.

(** ** Constants of the program *)

Definition TIMEOUT_STOP : Z := 2000.
Definition NO_OF_SAMPLES : Z := 100.
Definition TIMEBASE : Z := 250000.
Definition MAX_ADC : Z := 32767.

(** ** The driver boundary *)

(** Heap addresses of the sample buffers. *)
Definition ptr := N.

(** One constructor per driver entry point the program uses, carrying the
    arguments [main] passes.  The fourteen waveform arguments of the signal
    generator call are literal constants in the source and are not
    represented. *)
Inductive call :=
| OpenUnit (resolution : PS5000A_DEVICE_RESOLUTION)
| ChangePowerSource (handle : Z) (powerState : PICO_STATUS)
| SetChannel (handle : Z) (channel : PS5000A_CHANNEL) (enabled : Z)
    (type : PS5000A_COUPLING) (range : PS5000A_RANGE) (analogOffset : Z)
| SetDataBuffer (handle : Z) (channel : PS5000A_CHANNEL) (buffer : ptr)
    (bufferLth : Z) (segmentIndex : Z) (mode : PS5000A_RATIO_MODE)
| GetTimebase (handle : Z) (timebase : Z) (noSamples : Z) (segmentIndex : Z)
| SetSimpleTrigger (handle : Z) (enable : Z) (source : PS5000A_CHANNEL)
    (threshold : Z) (direction : PS5000A_THRESHOLD_DIRECTION) (delay : Z)
    (autoTrigger_ms : Z)
| SetSigGenBuiltInV2 (handle : Z)
| RunBlock (handle : Z) (noOfPreTriggerSamples noOfPostTriggerSamples : Z)
    (timebase : Z) (segmentIndex : Z)
| IsReady (handle : Z)
| Stop (handle : Z)
| CloseUnit (handle : Z)
| GetValues (handle : Z) (startIndex : Z) (noOfSamples : Z)
    (downSampleRatio : Z) (mode : PS5000A_RATIO_MODE) (segmentIndex : Z).

(** What a driver call hands back: the status code, the values it stores
    through the out-pointers that [main] reads afterwards, and the samples it
    writes into registered buffers (address, samples from index 0).  The
    out-values [main] never reads ([timeIntervalNS], [maxSamples],
    [timeIndisposedMs]) are left out. *)
Record reply := Reply {
  status : PICO_STATUS;
  out_handle : Z;
  out_isReady : Z;
  out_noSamples : Z;
  out_writes : list (ptr * list Z)
}.

(** The driver: any deterministic function of the calls made so far (oldest
    first) and the current call. *)
Definition driver := list call → call → reply.

(** ** Observable events *)

Inductive event :=
| Drv (c : call) (r : reply)
| NewArray (p : ptr) (len : Z)
| DeleteArray (p : ptr)
| Load (p : ptr) (i : Z)
| Cin (token : string)
| Cout (line : string)
| CoutError (what : string) (st : PICO_STATUS)
| CoutCount (label : string) (n : Z)
| CoutSample (i : Z) (raw mv : option Z)
| GetStatusCode (st : PICO_STATUS)
| SleepMs (ms : Z).

(** ** The execution monad *)

(** A heap cell is [None] while its value is indeterminate (a fresh
    [new int16_t[n]] array is not initialised). *)
Record world := World {
  hist : list call;
  heap : gmap N (list (option Z));
  brk : N
}.

(** [Return code] is the [return code;] statement of [main]; [OutOfFuel]
    marks a loop cut off by the fuel of the model. *)
Inductive outcome (A : Type) :=
| Next (a : A)
| Return (code : Z)
| OutOfFuel.
Arguments Next {A} a.
Arguments Return {A} code.
Arguments OutOfFuel {A}.

Record result (A : Type) := Result {
  events : list event;
  final : world;
  out : outcome A
}.
Arguments Result {A} events final out.
Arguments events {A} r.
Arguments final {A} r.
Arguments out {A} r.

Definition M (A : Type) : Type := world → result A.

Definition M_ret {A} (a : A) : M A := λ w, Result [] w (Next a).

Definition M_bind {A B} (k : A → M B) (m : M A) : M B := λ w,
  let r := m w in
  match out r with
  | Next a => let r' := k a (final r) in
              Result (events r ++ events r') (final r') (out r')
  | Return code => Result (events r) (final r) (Return code)
  | OutOfFuel => Result (events r) (final r) OutOfFuel
  end.

#[global] Instance M_mret : MRet M := @M_ret.
#[global] Instance M_mbind : MBind M := @M_bind.

Definition return_ {A} (code : Z) : M A := λ w, Result [] w (Return code).
Definition out_of_fuel {A} : M A := λ w, Result [] w OutOfFuel.
Definition emit (e : event) : M unit := λ w, Result [e] w (Next tt).
Definition skip : M unit := mret tt.

(** The driver stores [samples] from index 0 of the array at [p]; cells past
    the end of the array and arrays that are not allocated are not modelled. *)
Definition store_samples (h : gmap N (list (option Z))) (wr : ptr * list Z)
  : gmap N (list (option Z)) :=
  match h !! wr.1 with
  | Some cells =>
      <[wr.1 := take (length cells) ((Some <$> wr.2) ++ drop (length wr.2) cells)]> h
  | None => h
  end.

Definition read_cell (h : gmap N (list (option Z))) (p : ptr) (i : Z) : option Z :=
  if decide (0 ≤ i) then
    match h !! p with
    | Some cells => mjoin (cells !! Z.to_nat i)
    | None => None
    end
  else None.

Section Program.

(** The environment of one run: the driver and the token that
    [std::cin >> input] extracts (empty when extraction fails). *)
Variable drv : driver.
Variable stdin : string.

Definition invoke (c : call) : M reply := λ w,
  let r := drv (hist w) c in
  Result [Drv c r]
         (World (hist w ++ [c]) (foldl store_samples (heap w) (out_writes r)) (brk w))
         (Next r).

Definition ps5000aOpenUnit (resolution : PS5000A_DEVICE_RESOLUTION)
  : M (PICO_STATUS * Z) :=
  r ← invoke (OpenUnit resolution); mret (status r, out_handle r).

Definition ps5000aChangePowerSource (handle : Z) (powerState : PICO_STATUS)
  : M PICO_STATUS :=
  r ← invoke (ChangePowerSource handle powerState); mret (status r).

Definition ps5000aSetChannel (handle : Z) (channel : PS5000A_CHANNEL)
    (enabled : Z) (type : PS5000A_COUPLING) (range : PS5000A_RANGE)
    (analogOffset : Z) : M PICO_STATUS :=
  r ← invoke (SetChannel handle channel enabled type range analogOffset);
  mret (status r).

Definition ps5000aSetDataBuffer (handle : Z) (channel : PS5000A_CHANNEL)
    (buffer : ptr) (bufferLth : Z) (segmentIndex : Z)
    (mode : PS5000A_RATIO_MODE) : M PICO_STATUS :=
  r ← invoke (SetDataBuffer handle channel buffer bufferLth segmentIndex mode);
  mret (status r).

Definition ps5000aGetTimebase (handle : Z) (timebase : Z) (noSamples : Z)
    (segmentIndex : Z) : M PICO_STATUS :=
  r ← invoke (GetTimebase handle timebase noSamples segmentIndex);
  mret (status r).

Definition ps5000aSetSimpleTrigger (handle : Z) (enable : Z)
    (source : PS5000A_CHANNEL) (threshold : Z)
    (direction : PS5000A_THRESHOLD_DIRECTION) (delay : Z) (autoTrigger_ms : Z)
  : M PICO_STATUS :=
  r ← invoke (SetSimpleTrigger handle enable source threshold direction delay
                autoTrigger_ms);
  mret (status r).

Definition ps5000aSetSigGenBuiltInV2 (handle : Z) : M PICO_STATUS :=
  r ← invoke (SetSigGenBuiltInV2 handle); mret (status r).

Definition ps5000aRunBlock (handle : Z)
    (noOfPreTriggerSamples noOfPostTriggerSamples : Z) (timebase : Z)
    (segmentIndex : Z) : M PICO_STATUS :=
  r ← invoke (RunBlock handle noOfPreTriggerSamples noOfPostTriggerSamples
                timebase segmentIndex);
  mret (status r).

Definition ps5000aIsReady (handle : Z) : M (PICO_STATUS * Z) :=
  r ← invoke (IsReady handle); mret (status r, out_isReady r).

Definition ps5000aStop (handle : Z) : M PICO_STATUS :=
  r ← invoke (Stop handle); mret (status r).

Definition ps5000aCloseUnit (handle : Z) : M PICO_STATUS :=
  r ← invoke (CloseUnit handle); mret (status r).

Definition ps5000aGetValues (handle : Z) (startIndex : Z) (noOfSamples : Z)
    (downSampleRatio : Z) (mode : PS5000A_RATIO_MODE) (segmentIndex : Z)
  : M (PICO_STATUS * Z) :=
  r ← invoke (GetValues handle startIndex noOfSamples downSampleRatio mode
                segmentIndex);
  mret (status r, out_noSamples r).

(** [new int16_t[len]] and [delete[] p]. *)
Definition new_array (len : Z) : M ptr := λ w,
  Result [NewArray (brk w) len]
         (World (hist w) (<[brk w := replicate (Z.to_nat len) None]> (heap w))
                (N.succ (brk w)))
         (Next (brk w)).

Definition delete_array (p : ptr) : M unit := λ w,
  Result [DeleteArray p] (World (hist w) (delete p (heap w)) (brk w)) (Next tt).

(** [buffer[i]].  A cell that was never written holds an indeterminate value
    ([None]).  An index outside the array is an out-of-bounds read, whose
    behaviour the language leaves undefined: the model records the [Load]
    event and goes on with an indeterminate value, so what it derives for a
    run after such a read is a statement about the model only.  [main] reads
    past its buffers only when retrieval reports more than [NO_OF_SAMPLES]
    samples. *)
Definition load (p : ptr) (i : Z) : M (option Z) := λ w,
  Result [Load p i] w (Next (read_cell (heap w) p i)).

Definition cin : M string := _ ← emit (Cin stdin); mret stdin.
Definition cout (line : string) : M unit := emit (Cout line).
Definition cout_error (what : string) (st : PICO_STATUS) : M unit :=
  emit (CoutError what st).
Definition Sleep (ms : Z) : M unit := emit (SleepMs ms).

End Program.

(** Modelled from the spec: [getStatusCode] lives in [GenericMethods.h], which
    is not part of the source file.  The spec describes it as the
    status-to-human-readable-string lookup whose decoded description is
    printed after the numeric status; it is a console report, not a workflow
    call with a checked status. *)
Definition getStatusCode (st : PICO_STATUS) : M unit := emit (GetStatusCode st).

(** [for (auto i = 0; i < n; i++) body(i)] with [n] the [uint32_t] count.
    The index is a mathematical integer: the overflow of the [int] index for
    counts above [INT_MAX] is undefined in the source and is not modelled. *)
Definition for_upto (n : Z) (body : Z → M unit) : M unit :=
  foldr (λ i rest, body i;; rest) skip (seqZ 0 n).

(** [input[0]]: for an empty [std::string] this is the terminating NUL. *)
Definition first_char (s : string) : Ascii.ascii :=
  match s with
  | EmptyString => Ascii.zero
  | String c _ => c
  end.

(** Modelled from the spec: the full-scale voltage, in millivolts, that each
    range enumerator of [ps5000aApi.h] names. *)
Definition inputRanges (range : PS5000A_RANGE) : Z :=
  match range with
  | PS5000A_10MV => 10 | PS5000A_20MV => 20 | PS5000A_50MV => 50
  | PS5000A_100MV => 100 | PS5000A_200MV => 200 | PS5000A_500MV => 500
  | PS5000A_1V => 1000 | PS5000A_2V => 2000 | PS5000A_5V => 5000
  | PS5000A_10V => 10000 | PS5000A_20V => 20000 | PS5000A_50V => 50000
  end.

(** Modelled from the spec: [adc_to_mv] lives in [GenericMethods.h], which is
    not part of the source file.  The spec gives it as
    [mv = code * range_mv / max_adc_code]; the division is the truncating
    integer division of C. *)
Definition adc_to_mv (raw : Z) (range : PS5000A_RANGE) (max_adc : Z) : Z :=
  (raw * inputRanges range) `quot` max_adc.

(** One line of the sample listing: index, raw code, converted value. *)
Definition print_sample (buffer : ptr) (sampleIndex : Z) : M unit :=
  raw ← load buffer sampleIndex;
  emit (CoutSample sampleIndex raw
          ((λ v, adc_to_mv v PS5000A_2V MAX_ADC) <$> raw)).

Section Main.

Variable drv : driver.
Variable stdin : string.

(** The polling loop of [main].  [time_acq] never exceeds
    [TIMEOUT_STOP + 1], so the [int32_t] increment cannot overflow; the fuel
    bounds the number of loop tests. *)
Fixpoint wait_ready (fuel : nat) (handle : Z) (isReady : Z)
    (st : PICO_STATUS) (time_acq : Z) : M Z :=
  match fuel with
  | O => out_of_fuel
  | S fuel' =>
      if decide (0 = isReady ∧ PICO_OK = st) then
        '(st, isReady) ← ps5000aIsReady drv handle;
        (if decide (PICO_OK ≠ st) then
           cout_error "IsReady Issue" st;;
           getStatusCode st;;
           return_ (-1)
         else skip);;
        (if decide (time_acq > TIMEOUT_STOP) then
           ps5000aStop drv handle;;
           ps5000aCloseUnit drv handle;;
           cout "TIMEOUT ";;
           getStatusCode st;;
           return_ (-1)
         else skip);;
        Sleep 1;;
        wait_ready fuel' handle isReady st (time_acq + 1)
      else mret time_acq
  end.

Definition main_body (fuel : nat) : M Z :=
  (* Open PS5XXX unit *)
  '(st, handle) ← ps5000aOpenUnit drv PS5000A_DR_15BIT;
  (if decide (PICO_OK ≠ st) then
     cout_error "Open Unit" st;;
     getStatusCode st
   else skip);;
  (* Manage Power Supply change *)
  '(usbPowered, st) ←
    (if decide (PICO_POWER_SUPPLY_NOT_CONNECTED = st) then
       st' ← ps5000aChangePowerSource drv handle st;
       mret (true, st')
     else mret (false, st));
  (if decide (PICO_OK ≠ st) then
     cout_error "Change Power Source" st;;
     getStatusCode st;;
     return_ (-1)
   else skip);;
  (* Set the channels to be used *)
  st ← ps5000aSetChannel drv handle PS5000A_CHANNEL_A 1 PS5000A_DC PS5000A_1V 0;
  (if decide (PICO_OK ≠ st) then
     cout_error "Set Channel A" st;;
     return_ (-1)
   else skip);;
  st ← ps5000aSetChannel drv handle PS5000A_CHANNEL_B 1 PS5000A_DC PS5000A_1V 0;
  (if decide (PICO_OK ≠ st) then
     cout_error "Set Channel B" st;;
     getStatusCode st;;
     return_ (-1)
   else skip);;
  st ←
    (if decide (usbPowered = true) then
       st ← ps5000aSetChannel drv handle PS5000A_CHANNEL_C 0 PS5000A_DC PS5000A_1V 0;
       (if decide (PICO_OK ≠ st) then
          cout_error "Set Channel C" st;;
          getStatusCode st;;
          return_ (-1)
        else skip);;
       st ← ps5000aSetChannel drv handle PS5000A_CHANNEL_D 0 PS5000A_DC PS5000A_1V 0;
       (if decide (PICO_OK ≠ st) then
          cout_error "Set Channel D" st;;
          getStatusCode st;;
          return_ (-1)
        else skip);;
       mret st
     else mret st);
  (* Set the Data Buffers for each channels *)
  bufferA ← new_array NO_OF_SAMPLES;
  bufferB ← new_array NO_OF_SAMPLES;
  st ← ps5000aSetDataBuffer drv handle PS5000A_CHANNEL_A bufferA NO_OF_SAMPLES 0
         PS5000A_RATIO_MODE_NONE;
  (if decide (PICO_OK ≠ st) then
     cout_error "Set Buffer Channel A" st;;
     getStatusCode st;;
     return_ (-1)
   else skip);;
  st ← ps5000aSetDataBuffer drv handle PS5000A_CHANNEL_B bufferB NO_OF_SAMPLES 0
         PS5000A_RATIO_MODE_NONE;
  (if decide (PICO_OK ≠ st) then
     cout_error "Set Buffer Channel B" st;;
     getStatusCode st;;
     return_ (-1)
   else skip);;
  (* Setup the timebase *)
  st ← ps5000aGetTimebase drv handle TIMEBASE NO_OF_SAMPLES 0;
  (if decide (PICO_OK ≠ st) then
     cout_error "Get Timebase" st;;
     getStatusCode st;;
     return_ (-1)
   else skip);;
  (* Set the Trigger *)
  st ← ps5000aSetSimpleTrigger drv handle 1 PS5000A_CHANNEL_A 10000
         PS5000A_RISING 0 5000;
  (if decide (PICO_OK ≠ st) then
     cout_error "Set Trigger" st;;
     getStatusCode st;;
     return_ (-1)
   else skip);;
  (* Generate the signal from the AWG connected to channel A *)
  st ← ps5000aSetSigGenBuiltInV2 drv handle;
  (if decide (PICO_OK ≠ st) then
     cout_error "AWG Signal Genertion" st;;
     getStatusCode st;;
     return_ (-1)
   else skip);;
  input ← cin stdin;
  (if decide (first_char input = "s"%char) then
     cout "Acquiring ..."
   else
     cout "Exiting ...";;
     getStatusCode st;;
     return_ (-1));;
  (* Execute the data acquisition *)
  st ← ps5000aRunBlock drv handle 10 (NO_OF_SAMPLES - 11) TIMEBASE 0;
  (if decide (PICO_OK ≠ st) then
     cout_error "RunBlock" st;;
     getStatusCode st;;
     return_ (-1)
   else skip);;
  (* Wait for the Data Acqusition to be completed *)
  time_acq ← wait_ready fuel handle 0 st 0;
  emit (CoutCount "IsReady : " time_acq);;
  (* Extract the acquired samples *)
  '(st, noSamples) ← ps5000aGetValues drv handle 0 NO_OF_SAMPLES 1
                       PS5000A_RATIO_MODE_NONE 0;
  (if decide (PICO_OK ≠ st) then
     cout_error "Get Values Issue" st;;
     getStatusCode st;;
     return_ (-1)
   else skip);;
  (* Print the extracted samples *)
  cout "Print Buffer A : ";;
  for_upto noSamples (print_sample bufferA);;
  cout "";;
  cout "Print Buffer B : ";;
  for_upto noSamples (print_sample bufferB);;
  (* Free the buffers *)
  delete_array bufferA;;
  delete_array bufferB;;
  (* Close the unit *)
  st ← ps5000aCloseUnit drv handle;
  (if decide (PICO_OK ≠ st) then
     cout_error "Close Unit" st;;
     getStatusCode st;;
     return_ (-1)
   else skip);;
  return_ 0.

End Main.

(** The process starts with an empty call history and an empty heap. *)
Definition init : world := World [] ∅ 0%N.

(** [TIMEOUT_STOP + 2] loop tests are enough for every run: the loop body
    runs with the counter at 0, 1, ..., [TIMEOUT_STOP + 1] at most. *)
Definition main_fuel : nat := Z.to_nat (TIMEOUT_STOP + 2).

Definition main (drv : driver) (stdin : string) : result Z :=
  main_body drv stdin main_fuel init.

(** The exit code of the process, when [main] returns. *)
Definition exit_code {A} (r : result A) : option Z :=
  match out r with
  | Return code => Some code
  | _ => None
  end.

(** ** Stub drivers

    A scripted driver in the style of a test double: the status of each call
    is given by [stub_status], readiness turns true once [stub_ready_after]
    earlier polls have been answered, and retrieval reports [stub_count]
    samples after storing [stub_A] and [stub_B] through the buffers that were
    registered for channels A and B. *)

Definition is_IsReady (c : call) : bool :=
  match c with IsReady _ => true | _ => false end.

(** The buffer that a [SetDataBuffer] call registers for channel [ch]. *)
Definition registered (ch : PS5000A_CHANNEL) (c : call) : option ptr :=
  match c, ch with
  | SetDataBuffer _ PS5000A_CHANNEL_A p _ _ _, PS5000A_CHANNEL_A => Some p
  | SetDataBuffer _ PS5000A_CHANNEL_B p _ _ _, PS5000A_CHANNEL_B => Some p
  | _, _ => None
  end.

(** The stores of [samples] into every buffer registered for [ch] so far. *)
Definition writes_for (h : list call) (ch : PS5000A_CHANNEL) (samples : list Z)
  : list (ptr * list Z) :=
  (λ p, (p, samples)) <$> omap (registered ch) h.

Record stub := Stub {
  stub_status : call → PICO_STATUS;
  stub_ready_after : nat;
  stub_count : Z;
  stub_A : list Z;
  stub_B : list Z
}.

Definition stub_driver (s : stub) : driver := λ h c,
  match c with
  | OpenUnit _ => Reply (stub_status s c) 1 0 0 []
  | IsReady _ =>
      Reply (stub_status s c) 0
            (if decide (stub_ready_after s ≤ length (filter is_IsReady h))%nat
             then 1 else 0) 0 []
  | GetValues _ _ _ _ _ _ =>
      Reply (stub_status s c) 0 0 (stub_count s)
            (writes_for h PS5000A_CHANNEL_A (stub_A s)
               ++ writes_for h PS5000A_CHANNEL_B (stub_B s))
  | _ => Reply (stub_status s c) 0 0 0 []
  end.

(** The script in which every call succeeds. *)
Definition all_ok : call → PICO_STATUS := λ _, PICO_OK.

(** ** Traces

    Predicates and projections on the list of events of a run. *)

(** The driver calls of a trace, with their replies, oldest first. *)
Definition drv_of (e : event) : option (call * reply) :=
  match e with Drv c r => Some (c, r) | _ => None end.

Definition calls_of (tr : list event) : list (call * reply) := omap drv_of tr.

(** The replies to the readiness queries of a trace, oldest first. *)
Definition ready_reply (e : event) : option reply :=
  match e with Drv (IsReady _) r => Some r | _ => None end.

(** The duration of a sleep, in milliseconds. *)
Definition sleep_of (e : event) : option Z :=
  match e with SleepMs ms => Some ms | _ => None end.

(** [each_with_rest P tr]: every event of [tr], taken together with the
    events that follow it, satisfies [P]. *)
Fixpoint each_with_rest (P : event → list event → Prop) (tr : list event) : Prop :=
  match tr with
  | [] => True
  | e :: rest => P e rest ∧ each_with_rest P rest
  end.

(** ** The polling loop as a relation

    [polling handle t evs o]: started with the counter at [t], the loop
    produces the events [evs] and ends in [o], which is [Next] of the final
    counter when the device became ready and [Return (-1)] when the loop left
    [main]. *)
Inductive polling (handle : Z) : Z → list event → outcome Z → Prop :=
| polling_ready t r :
    status r = PICO_OK → t ≤ TIMEOUT_STOP → out_isReady r ≠ 0 →
    polling handle t [Drv (IsReady handle) r; SleepMs 1] (Next (t + 1))
| polling_again t r evs o :
    status r = PICO_OK → t ≤ TIMEOUT_STOP → out_isReady r = 0 →
    polling handle (t + 1) evs o →
    polling handle t (Drv (IsReady handle) r :: SleepMs 1 :: evs) o
| polling_error t r :
    status r ≠ PICO_OK →
    polling handle t
      [Drv (IsReady handle) r; CoutError "IsReady Issue" (status r);
       GetStatusCode (status r)]
      (Return (-1))
| polling_timeout t r r_stop r_close :
    status r = PICO_OK → t > TIMEOUT_STOP →
    polling handle t
      [Drv (IsReady handle) r; Drv (Stop handle) r_stop;
       Drv (CloseUnit handle) r_close; Cout "TIMEOUT ";
       GetStatusCode (status r)]
      (Return (-1)).

(** ** Auxiliary definitions for running the monad *)

(** The result of a computation that runs after the events [evs]. *)
Definition prepend {A} (evs : list event) (r : result A) : result A :=
  Result (evs ++ events r) (final r) (out r).

(** ** The sample listing *)

(** The events of printing the cells [ixs] of the array at [p]. *)
Definition sample_lines (h : gmap N (list (option Z))) (p : ptr) (ixs : list Z)
  : list event :=
  ixs ≫= λ i, [Load p i;
              CoutSample i (read_cell h p i)
                ((λ v, adc_to_mv v PS5000A_2V MAX_ADC) <$> read_cell h p i)].

(** ** Sample counts *)

(** The sample counts that the driver calls of [main] carry. *)
Definition sample_counts (c : call) : Prop :=
  match c with
  | SetDataBuffer _ _ _ bufferLth _ _ => bufferLth = NO_OF_SAMPLES
  | RunBlock _ pre post _ _ =>
      pre = 10 ∧ post = NO_OF_SAMPLES - 11 ∧ post = 89 ∧ pre + post = 99
      ∧ pre + post = NO_OF_SAMPLES - 1
  | GetValues _ _ noOfSamples _ _ _ => noOfSamples = NO_OF_SAMPLES
  | _ => True
  end.

(** [P] holds of the call of the event, if it is a driver call. *)
Definition on_call (P : call → Prop) (e : event) : Prop :=
  match e with Drv c _ => P c | _ => True end.

(** The events a polling loop on [handle] can produce. *)
Definition loop_event (handle : Z) (e : event) : Prop :=
  match e with
  | Drv (IsReady h) _ | Drv (Stop h) _ | Drv (CloseUnit h) _ => h = handle
  | SleepMs ms => ms = 1
  | Cout _ | CoutError _ _ | GetStatusCode _ => True
  | _ => False
  end.

(** The events of the sample listing. *)
Definition sample_event (e : event) : Prop :=
  match e with Load _ _ | CoutSample _ _ _ => True | _ => False end.

(** ** Fail-fast error handling *)

Definition is_OpenUnit (c : call) : Prop :=
  match c with OpenUnit _ => True | _ => False end.

(** A reply the workflow treats as a failure: any status other than
    [PICO_OK], except power-supply-not-connected in reply to open. *)
Definition fatal (c : call) (r : reply) : Prop :=
  status r ≠ PICO_OK
  ∧ ¬ (is_OpenUnit c ∧ status r = PICO_POWER_SUPPLY_NOT_CONNECTED).

(** The calls that end the workflow: a failed call, and the stop call of the
    timeout path, whatever its status, which the program discards. *)
Definition ends_workflow (c : call) (r : reply) : Prop :=
  fatal c r ∨ ∃ handle, c = Stop handle.

(** The driver calls that still follow a call [c] that ends the workflow:
    close after stop, none otherwise. *)
Definition calls_after_failure (c : call) (rest : list event) : Prop :=
  match c with
  | Stop handle => ∃ r_close, calls_of rest = [(CloseUnit handle, r_close)]
  | _ => calls_of rest = []
  end.

(** What must hold after an event when the run ends with exit code [code]. *)
Definition after_failure (code : option Z) (e : event) (rest : list event) : Prop :=
  match e with
  | Drv c r => ends_workflow c r → calls_after_failure c rest ∧ code = Some (-1)
  | _ => True
  end.

(** Fail-fast as the program implements it. *)
Definition fail_fast_run (res : result Z) : Prop :=
  each_with_rest (after_failure (exit_code res)) (events res).

(** An event that is neither the reply to a failed call nor to stop. *)
Definition ok_event (e : event) : Prop :=
  match e with
  | Drv (Stop _) _ => False
  | Drv _ r => status r = PICO_OK
  | _ => True
  end.

(** Fail-fast at every driver call, stop included: no driver call follows a
    failed one. *)
Definition fail_fast_at_every_call (res : result Z) : Prop :=
  ∀ pre c r post,
    events res = pre ++ Drv c r :: post →
    fatal c r →
    calls_of post = [] ∧ exit_code res = Some (-1).

(** Scripts for the stub driver: [fails_at p st] answers [st] to the calls
    selected by [p] and [PICO_OK] to the others; [never_ready] never reports
    the device ready. *)
Definition is_Stop (c : call) : bool :=
  match c with Stop _ => true | _ => false end.

Definition fails_at (p : call → bool) (st : PICO_STATUS) : call → PICO_STATUS :=
  λ c, if p c then st else PICO_OK.

Definition never_ready (status_of : call → PICO_STATUS) : stub :=
  Stub status_of (Z.to_nat (TIMEOUT_STOP + 3)) 0 [] [].

(** The reply of a stub to a call that it fails with status 1. *)
Definition r_fail : reply := Reply 1 0 0 0 [].

(** ** Power source negotiation *)

Definition is_ChangePowerSource (c : call) : Prop :=
  match c with ChangePowerSource _ _ => True | _ => False end.

Definition power_negotiation (res : result Z) : Prop :=
  ∃ r_open rest,
    events res = Drv (OpenUnit PS5000A_DR_15BIT) r_open :: rest
    ∧ (status r_open ≠ PICO_POWER_SUPPLY_NOT_CONNECTED →
       Forall (on_call (λ c, ¬ is_ChangePowerSource c)) rest)
    ∧ (status r_open = PICO_POWER_SUPPLY_NOT_CONNECTED →
       ∃ r_power rest',
         rest = CoutError "Open Unit" (status r_open)
                :: GetStatusCode (status r_open)
                :: Drv (ChangePowerSource (out_handle r_open) (status r_open)) r_power
                :: rest'
         ∧ Forall (on_call (λ c, ¬ is_ChangePowerSource c)) rest'
         ∧ (status r_power ≠ PICO_OK →
            calls_of rest' = [] ∧ exit_code res = Some (-1))
         ∧ (status r_power = PICO_OK →
            ∃ r_a rest'',
              rest' = Drv (SetChannel (out_handle r_open) PS5000A_CHANNEL_A 1
                             PS5000A_DC PS5000A_1V 0) r_a :: rest'')).

(** ** The user confirmation gate *)





(** ** The shape of a run around the polling loop *)

(** Events of the setup phase, before the capture is started.  A [RunBlock]
    reply in this phase is a failed one. *)
Definition before_loop (e : event) : Prop :=
  match e with
  | Drv (RunBlock _ _ _ _ _) r => status r ≠ PICO_OK
  | Drv (IsReady _) _ | Drv (Stop _) _ | Drv (CloseUnit _) _
  | Drv (GetValues _ _ _ _ _ _) _
  | SleepMs _ | CoutCount _ _ | Load _ _ | CoutSample _ _ _ | DeleteArray _ => False
  | _ => True
  end.

(** Events of the retrieval and teardown phase, after the loop. *)
Definition after_loop (e : event) : Prop :=
  match e with
  | Drv (RunBlock _ _ _ _ _) _ | Drv (IsReady _) _ | Drv (Stop _) _
  | SleepMs _ | CoutCount _ _ | Cin _ | NewArray _ _ => False
  | _ => True
  end.

(** Either the capture is never started, or the trace is the setup phase, the
    successful [RunBlock], the events of the polling loop and, when the loop
    ends with the device ready, the report of the counter and the rest of the
    run. *)
Definition polling_shape (res : result Z) : Prop :=
  Forall before_loop (events res)
  ∨ ∃ pre handle r_run l o post,
      events res
      = pre ++ Drv (RunBlock handle 10 (NO_OF_SAMPLES - 11) TIMEBASE 0) r_run
            :: l ++ post
      ∧ status r_run = PICO_OK
      ∧ Forall before_loop pre
      ∧ polling handle 0 l o
      ∧ ((o = Return (-1) ∧ post = [] ∧ exit_code res = Some (-1))
         ∨ ∃ time_acq post',
             o = Next time_acq
             ∧ post = CoutCount "IsReady : " time_acq :: post'
             ∧ Forall after_loop post').

(** ** The polling loop *)

(** A successful [RunBlock] is followed by at least one readiness query
    ([qs] is the list of replies to the queries of the run). *)
Definition polled_after (qs : list reply) (e : event) : Prop :=
  match e with
  | Drv (RunBlock _ _ _ _ _) r => status r = PICO_OK → qs ≠ []
  | _ => True
  end.

(** The counter printed after the loop. *)
Definition counter_is (n : Z) (e : event) : Prop :=
  match e with CoutCount _ t => t = n | _ => True end.

(** ** The timeout path *)

Definition not_Load (e : event) : Prop :=
  match e with Load _ _ => False | _ => True end.

(** The last events of a run that times out; [q] is the reply to the last
    readiness query. *)
Definition timeout_tail (handle : Z) (q r_stop r_close : reply) : list event :=
  [Drv (IsReady handle) q; Drv (Stop handle) r_stop;
   Drv (CloseUnit handle) r_close; Cout "TIMEOUT "; GetStatusCode (status q)].

(** ** Retrieval and the sample listing *)

(** The index printed on a sample line. *)
Definition sample_index (e : event) : option Z :=
  match e with CoutSample i _ _ => Some i | _ => None end.

(** The error report that may end a run. *)
Definition report_event (e : event) : Prop :=
  match e with CoutError _ _ | GetStatusCode _ => True | _ => False end.

(** What follows a successful retrieval that returned [noSamples] samples:
    the listing of the cells [0 .. noSamples - 1] of each buffer, the release
    of the buffers, and close. *)
Definition listing (handle : Z) (noSamples : Z) (rest : list event) : Prop :=
  ∃ h bufferA bufferB r_close report,
    rest = Cout "Print Buffer A : "
           :: sample_lines h bufferA (seqZ 0 noSamples)
           ++ Cout "" :: Cout "Print Buffer B : "
           :: sample_lines h bufferB (seqZ 0 noSamples)
           ++ DeleteArray bufferA :: DeleteArray bufferB
           :: Drv (CloseUnit handle) r_close :: report
    ∧ Forall report_event report.

Definition listing_after (e : event) (rest : list event) : Prop :=
  match e with
  | Drv (GetValues handle startIndex noOfSamples _ _ _) r =>
      startIndex = 0 ∧ noOfSamples = NO_OF_SAMPLES
      ∧ (status r = PICO_OK → listing handle (out_noSamples r) rest)
  | _ => True
  end.

Definition listing_run (res : result Z) : Prop :=
  each_with_rest listing_after (events res).

(** ** Runs used as examples *)

(** Everything succeeds, the device is ready at the fourth query, and
    retrieval returns 3 samples per channel (100 were requested); channel A
    holds the two full-scale codes and zero. *)
Definition three_samples : stub :=
  Stub all_ok 3 3 [32767; -32767; 0] [100; 200; 300].

Definition is_SetChannel (c : call) : bool :=
  match c with SetChannel _ _ _ _ _ _ => true | _ => false end.

Definition is_GetValues (c : call) : bool :=
  match c with GetValues _ _ _ _ _ _ => true | _ => false end.

(** The range each channel is configured with. *)
Definition configured_range (e : event) : option (PS5000A_CHANNEL * PS5000A_RANGE) :=
  match e with
  | Drv (SetChannel _ channel _ _ range _) _ => Some (channel, range)
  | _ => None
  end.

(** A printed sample line. *)
Definition sample_line (e : event) : option (Z * option Z * option Z) :=
  match e with CoutSample i raw mv => Some (i, raw, mv) | _ => None end.

(** Allocation and release of the sample buffers. *)
Definition heap_event (e : event) : option event :=
  match e with NewArray _ _ | DeleteArray _ => Some e | _ => None end.

(** The stub of the scenario of the spec: every call succeeds, readiness is
    false three times and then true, and retrieval returns the 100 requested
    samples per channel. *)
Definition hundred_samples : stub :=
  Stub all_ok 3 100 ((λ i, 300 * i) <$> seqZ 0 100) (replicate 100 (-32767)).

Definition is_OpenUnit_call (c : call) : bool :=
  match c with OpenUnit _ => true | _ => false end.

(** ** Lifetime of the sample buffers *)

(** No buffer is released before retrieval has succeeded: reading the trace
    from its start, a [DeleteArray] is not met before a [GetValues] reply
    with status [PICO_OK]. *)
Fixpoint live_until_retrieved (tr : list event) : Prop :=
  match tr with
  | [] => True
  | Drv (GetValues _ _ _ _ _ _) r :: rest =>
      status r = PICO_OK ∨ live_until_retrieved rest
  | DeleteArray _ :: _ => False
  | _ :: rest => live_until_retrieved rest
  end.

(** * Further properties of [main]

    ** Bounds of the polling loop *)

(** The reply to a stop call. *)
Definition stop_reply (e : event) : option reply :=
  match e with Drv (Stop _) r => Some r | _ => None end.

(** ** The order of the driver calls *)

(** The position of a call in the workflow of [main]. *)
Definition stage (c : call) : nat :=
  match c with
  | OpenUnit _ => 1
  | ChangePowerSource _ _ => 2
  | SetChannel _ PS5000A_CHANNEL_A _ _ _ _ => 3
  | SetChannel _ PS5000A_CHANNEL_B _ _ _ _ => 4
  | SetChannel _ PS5000A_CHANNEL_C _ _ _ _ => 5
  | SetChannel _ PS5000A_CHANNEL_D _ _ _ _ => 6
  | SetDataBuffer _ PS5000A_CHANNEL_A _ _ _ _ => 7
  | SetDataBuffer _ _ _ _ _ _ => 8
  | GetTimebase _ _ _ _ => 9
  | SetSimpleTrigger _ _ _ _ _ _ _ => 10
  | SetSigGenBuiltInV2 _ => 11
  | RunBlock _ _ _ _ _ => 12
  | IsReady _ => 13
  | Stop _ => 14
  | GetValues _ _ _ _ _ _ => 14
  | CloseUnit _ => 15
  end.

(** A call may follow a call of stage [prev]: it is later in the workflow, or
    both are readiness queries. *)
Definition follows (prev : nat) (c : call) : bool :=
  Nat.ltb prev (stage c) || (Nat.eqb prev 13 && Nat.eqb (stage c) 13).

(** Every call of the trace may follow the call before it ([prev] is the
    stage of the last call before the trace). *)
Fixpoint in_sequence (prev : nat) (tr : list event) : Prop :=
  match tr with
  | [] => True
  | Drv c _ :: rest => follows prev c = true ∧ in_sequence (stage c) rest
  | _ :: rest => in_sequence prev rest
  end.

(** ** The handle and the channels *)

(** The call is made on the session [handle]. *)
Definition uses_handle (handle : Z) (c : call) : Prop :=
  match c with
  | OpenUnit _ => False
  | ChangePowerSource h _ | SetChannel h _ _ _ _ _ | SetDataBuffer h _ _ _ _ _
  | GetTimebase h _ _ _ | SetSimpleTrigger h _ _ _ _ _ _ | SetSigGenBuiltInV2 h
  | RunBlock h _ _ _ _ | IsReady h | Stop h | CloseUnit h
  | GetValues h _ _ _ _ _ => h = handle
  end.

(** Channels A and B are switched on; channels C and D are only touched, and
    then switched off, when open reported [st_open] =
    power-supply-not-connected. *)
Definition channel_rule (st_open : PICO_STATUS) (c : call) : Prop :=
  match c with
  | SetChannel _ PS5000A_CHANNEL_A enabled _ _ _
  | SetChannel _ PS5000A_CHANNEL_B enabled _ _ _ => enabled = 1
  | SetChannel _ _ enabled _ _ _ =>
      enabled = 0 ∧ st_open = PICO_POWER_SUPPLY_NOT_CONNECTED
  | _ => True
  end.

(** What comes right after channel B has been configured. *)
Definition after_channel_B (st_open : PICO_STATUS) (handle : Z)
    (e : event) (rest : list event) : Prop :=
  match e with
  | Drv (SetChannel _ PS5000A_CHANNEL_B _ _ _ _) r =>
      status r = PICO_OK →
      (st_open = PICO_POWER_SUPPLY_NOT_CONNECTED →
       ∃ r_c rest',
         rest = Drv (SetChannel handle PS5000A_CHANNEL_C 0 PS5000A_DC PS5000A_1V 0) r_c
                :: rest'
         ∧ (status r_c = PICO_OK →
            ∃ r_d rest'',
              rest' = Drv (SetChannel handle PS5000A_CHANNEL_D 0 PS5000A_DC
                             PS5000A_1V 0) r_d :: rest''))
      ∧ (st_open ≠ PICO_POWER_SUPPLY_NOT_CONNECTED →
         ∃ p rest', rest = NewArray p NO_OF_SAMPLES :: rest')
  | _ => True
  end.

(** ** The error reports *)

(** The numeric error line [CoutError what st] is followed at once by the
    decoded description of [st], except the line for channel A, which ends
    the run; and a decoded description follows either the numeric line of the
    same status or, with [PICO_OK], one of the two plain messages. *)
Definition report_rule (e : event) (rest : list event) : Prop :=
  match e with
  | CoutError what st =>
      (what = "Set Channel A" ∧ rest = [])
      ∨ ∃ rest', rest = GetStatusCode st :: rest'
  | _ => True
  end
  ∧ match rest with
    | GetStatusCode st :: _ =>
        (∃ what, e = CoutError what st)
        ∨ (st = PICO_OK ∧ (e = Cout "Exiting ..." ∨ e = Cout "TIMEOUT "))
    | _ => True
    end.

(** The trace does not start with a decoded description. *)
Definition no_report_head (tr : list event) : Prop :=
  match tr with GetStatusCode _ :: _ => False | _ => True end.

(** The properties of this section, for one run. *)
Definition workflow_rules (res : result Z) : Prop :=
  ∃ r_open rest,
    events res = Drv (OpenUnit PS5000A_DR_15BIT) r_open :: rest
    ∧ in_sequence 1 rest
    ∧ Forall (on_call (uses_handle (out_handle r_open))) rest
    ∧ Forall (on_call (channel_rule (status r_open))) rest
    ∧ each_with_rest (after_channel_B (status r_open) (out_handle r_open)) rest
    ∧ each_with_rest report_rule (events res).

(** ** The sample buffers on the heap *)

(** The arrays of a heap with their lengths. *)
Definition shape (h : gmap N (list (option Z))) : gmap N nat := length <$> h.

(** A computation that allocates and releases nothing. *)
Definition keeps_shape {A} (m : M A) : Prop :=
  ∀ w, shape (heap (final (m w))) = shape (heap w).

(** What [main] does with the two sample buffers once both exist: nothing
    else is allocated, [bufferA] is registered for channel A and [bufferB]
    for channel B with [NO_OF_SAMPLES] cells each, and only these two arrays
    are read and released. *)
Definition buffer_use (bufferA bufferB : ptr) (e : event) : Prop :=
  match e with
  | NewArray _ _ => False
  | Drv (SetDataBuffer _ PS5000A_CHANNEL_A buffer bufferLth _ _) _ =>
      buffer = bufferA ∧ bufferLth = NO_OF_SAMPLES
  | Drv (SetDataBuffer _ PS5000A_CHANNEL_B buffer bufferLth _ _) _ =>
      buffer = bufferB ∧ bufferLth = NO_OF_SAMPLES
  | Drv (SetDataBuffer _ _ _ _ _ _) _ => False
  | Load p _ | DeleteArray p => p = bufferA ∨ p = bufferB
  | _ => True
  end.

(** After a successful retrieval the listing reads the heap as the driver
    left it: the heap [h] before the call, in which both buffers are arrays
    of [NO_OF_SAMPLES] cells, with the stores of the reply applied. *)
Definition listing_of (bufferA bufferB : ptr) (e : event) (rest : list event)
  : Prop :=
  match e with
  | Drv (GetValues handle _ _ _ _ _) r =>
      status r = PICO_OK →
      ∃ h r_close report,
        shape h !! bufferA = Some (Z.to_nat NO_OF_SAMPLES)
        ∧ shape h !! bufferB = Some (Z.to_nat NO_OF_SAMPLES)
        ∧ rest
          = Cout "Print Buffer A : "
            :: sample_lines (foldl store_samples h (out_writes r)) bufferA
                 (seqZ 0 (out_noSamples r))
            ++ Cout "" :: Cout "Print Buffer B : "
            :: sample_lines (foldl store_samples h (out_writes r)) bufferB
                 (seqZ 0 (out_noSamples r))
            ++ DeleteArray bufferA :: DeleteArray bufferB
            :: Drv (CloseUnit handle) r_close :: report
        ∧ Forall report_event report
  | _ => True
  end.

Definition buffers_after (e : event) (rest : list event) : Prop :=
  match e, rest with
  | NewArray bufferA lenA, NewArray bufferB lenB :: rest' =>
      bufferA ≠ bufferB ∧ lenA = NO_OF_SAMPLES ∧ lenB = NO_OF_SAMPLES
      ∧ Forall (buffer_use bufferA bufferB) rest'
      ∧ each_with_rest (listing_of bufferA bufferB) rest'
  | _, _ => True
  end.

Definition buffer_rules (res : result Z) : Prop :=
  each_with_rest buffers_after (events res).

(** The heap when [main] returns, by the allocations and releases of the
    run. *)
Definition heap_outcome (res : result Z) : Prop :=
  (omap heap_event (events res) = [] ∧ heap (final res) = ∅
   ∧ exit_code res = Some (-1))
  ∨ (∃ bufferA bufferB,
       bufferA ≠ bufferB
       ∧ omap heap_event (events res)
         = [NewArray bufferA NO_OF_SAMPLES; NewArray bufferB NO_OF_SAMPLES]
       ∧ shape (heap (final res))
         = <[bufferB := Z.to_nat NO_OF_SAMPLES]>
             (<[bufferA := Z.to_nat NO_OF_SAMPLES]> ∅)
       ∧ exit_code res = Some (-1))
  ∨ (∃ bufferA bufferB,
       omap heap_event (events res)
       = [NewArray bufferA NO_OF_SAMPLES; NewArray bufferB NO_OF_SAMPLES;
          DeleteArray bufferA; DeleteArray bufferB]
       ∧ heap (final res) = ∅).

(** ** The exit code *)

(** An event of a run in which nothing went wrong: the reply to a driver
    call is [PICO_OK], or power-supply-not-connected in reply to open, and
    the capture is not stopped. *)
Definition clean_event (e : event) : Prop :=
  match e with
  | Drv (Stop _) _ => False
  | Drv c r =>
      status r = PICO_OK
      ∨ (is_OpenUnit c ∧ status r = PICO_POWER_SUPPLY_NOT_CONNECTED)
  | _ => True
  end.

Definition exit_rules (stdin : string) (res : result Z) : Prop :=
  (exit_code res = Some 0 →
   first_char stdin = "s"%char
   ∧ Forall clean_event (events res)
   ∧ ∃ pre handle r, events res = pre ++ [Drv (CloseUnit handle) r])
  ∧ (first_char stdin = "s"%char → Forall clean_event (events res) →
     exit_code res = Some 0).

(** ** The listing and the stored samples *)

(** The line of the listing for the sample [raw] at index [i]. *)
Definition sample_row (i : nat) (raw : Z) : Z * option Z * option Z :=
  (Z.of_nat i, Some raw, Some (adc_to_mv raw PS5000A_2V MAX_ADC)).


(** * The console helpers of the Linux build

    [_getch] and [_kbhit] talk to the terminal through the C library.  As
    for the driver, the operating system is an arbitrary deterministic
    function from the calls made so far to a reply.  The helpers ignore the
    return values of [tcgetattr], [tcsetattr] and [ioctl]; the replies carry
    what these calls store through their pointer arguments. *)

(** [ICANON] and [ECHO] of [termios.h], with their Linux values. *)
Definition ICANON : Z := 2.
Definition ECHO : Z := 8.

(** [struct termios]: the local flags, and the fields that the helpers only
    copy. *)
Record termios := Termios {
  c_lflag : Z;
  c_other : list Z
}.

Inductive sys_call :=
| Tcgetattr
| Tcsetattr (t : termios)
| Setbuf
| Fionread
| Getchar.

(** [out_termios] is what [tcgetattr] stores; [out_int] is the count that
    [ioctl(FIONREAD)] stores and the result of [getchar]. *)
Record sys_reply := SysReply {
  out_termios : termios;
  out_int : Z
}.

Definition os := list sys_call → sys_call → sys_reply.

(** The calls of a helper with their replies, oldest first. *)
Definition sys_trace := list (sys_call * sys_reply).

Definition sys (env : os) (tr : sys_trace) (c : sys_call)
  : sys_reply * sys_trace :=
  let r := env (tr.*1) c in (r, tr ++ [(c, r)]).

(** [newt = oldt; newt.c_lflag &= ~(ICANON | ECHO)] *)
Definition raw_mode (oldt : termios) : termios :=
  Termios (Z.land (c_lflag oldt) (Z.lnot (Z.lor ICANON ECHO))) (c_other oldt).

(** The [do { ... } while (bytesWaiting)] loop of [_getch]; the fuel bounds
    the number of iterations. *)
Fixpoint flush_input (env : os) (fuel : nat) (tr : sys_trace)
  : option sys_trace :=
  match fuel with
  | O => None
  | S fuel' =>
      let '(r, tr) := sys env tr Fionread in
      let bytesWaiting := out_int r in
      let tr := if decide (bytesWaiting ≠ 0) then (sys env tr Getchar).2
                else tr in
      if decide (bytesWaiting ≠ 0) then flush_input env fuel' tr else Some tr
  end.

Definition _getch (env : os) (fuel : nat) (tr : sys_trace)
  : option (Z * sys_trace) :=
  let '(r, tr) := sys env tr Tcgetattr in
  let oldt := out_termios r in
  let newt := raw_mode oldt in
  let '(_, tr) := sys env tr (Tcsetattr newt) in
  let '(_, tr) := sys env tr Setbuf in
  match flush_input env fuel tr with
  | None => None
  | Some tr =>
      let '(r, tr) := sys env tr Getchar in
      let ch := out_int r in
      let '(_, tr) := sys env tr (Tcsetattr oldt) in
      Some (ch, tr)
  end.

Definition _kbhit (env : os) (tr : sys_trace) : Z * sys_trace :=
  let '(r, tr) := sys env tr Tcgetattr in
  let oldt := out_termios r in
  let newt := raw_mode oldt in
  let '(_, tr) := sys env tr (Tcsetattr newt) in
  let '(_, tr) := sys env tr Setbuf in
  let '(r, tr) := sys env tr Fionread in
  let bytesWaiting := out_int r in
  let '(_, tr) := sys env tr (Tcsetattr oldt) in
  (bytesWaiting, tr).

(** ** Traces of the helpers *)

(** The calls of the flush loop before its last query: queries that report
    waiting bytes, each followed by the read of one byte. *)
Fixpoint flushing (tr : sys_trace) : Prop :=
  match tr with
  | [] => True
  | (Fionread, r) :: (Getchar, _) :: rest => out_int r ≠ 0 ∧ flushing rest
  | _ => False
  end.

Definition is_Getchar (c : sys_call) : bool :=
  match c with Getchar => true | _ => false end.

(** The number of bytes read so far. *)
Definition taken (h : list sys_call) : nat := length (filter is_Getchar h).

(** The terminal settings after the calls [h], from the settings [t0]. *)
Definition current_mode (t0 : termios) (h : list sys_call) : termios :=
  foldl (λ t c, match c with Tcsetattr t' => t' | _ => t end) t0 h.

(** A scripted terminal with the settings [t0]: the bytes [typed] are
    waiting when the helper is called, and the bytes [later] are typed
    afterwards, each one arriving when a read finds the queue empty.  A read
    past the script returns [EOF]. *)
Definition tty (t0 : termios) (typed later : list Z) : os := λ h c,
  match c with
  | Tcgetattr => SysReply (current_mode t0 h) 0
  | Fionread => SysReply t0 (Z.of_nat (length typed - taken h))
  | Getchar => SysReply t0 (default (-1) ((typed ++ later) !! taken h))
  | _ => SysReply t0 0
  end.

(** ** Closing the session *)




(** ** Allocation and registration of the buffers *)

(** An event that does not involve a sample buffer. *)
Definition no_buffer_event (e : event) : Prop :=
  match e with
  | NewArray _ _ | DeleteArray _ | Load _ _
  | Drv (SetDataBuffer _ _ _ _ _ _) _ => False
  | _ => True
  end.

(** A run that ends before the buffers exist touches no buffer and returns
    -1.  Every other run allocates two different arrays of [NO_OF_SAMPLES]
    cells, one right after the other, and at once registers the first for
    channel A; when that succeeds, the next event registers the second for
    channel B.  [buffer_use] holds of everything that follows. *)
Definition allocation_rule (res : result Z) : Prop :=
  (Forall no_buffer_event (events res) ∧ exit_code res = Some (-1))
  ∨ ∃ pre handle bufferA bufferB r_a rest,
      events res
      = pre ++ NewArray bufferA NO_OF_SAMPLES :: NewArray bufferB NO_OF_SAMPLES
            :: Drv (SetDataBuffer handle PS5000A_CHANNEL_A bufferA
                      NO_OF_SAMPLES 0 PS5000A_RATIO_MODE_NONE) r_a
            :: rest
      ∧ bufferA ≠ bufferB
      ∧ Forall no_buffer_event pre
      ∧ Forall (buffer_use bufferA bufferB) rest
      ∧ (status r_a = PICO_OK →
         ∃ r_b rest',
           rest = Drv (SetDataBuffer handle PS5000A_CHANNEL_B bufferB
                         NO_OF_SAMPLES 0 PS5000A_RATIO_MODE_NONE) r_b
                  :: rest').

(** ** Runs that stay inside the buffers *)



(** ** Running the monad *)

Lemma run_bind {A B} (m : M A) (k : A → M B) (w : world) :
  (m ≫= k) w =
  match out (m w) with
  | Next a => Result (events (m w) ++ events (k a (final (m w))))
                     (final (k a (final (m w)))) (out (k a (final (m w))))
  | Return code => Result (events (m w)) (final (m w)) (Return code)
  | OutOfFuel => Result (events (m w)) (final (m w)) OutOfFuel
  end.
Proof. reflexivity. Qed.

Lemma bind_assoc {A B C} (m : M A) (f : A → M B) (k : B → M C) (w : world) :
  ((m ≫= f) ≫= k) w = (m ≫= (λ x, f x ≫= k)) w.
Proof.
  rewrite !run_bind. destruct (out (m w)) as [a| |]; cbn [out events final]; [|done..].
  rewrite run_bind. destruct (out (f a (final (m w)))); cbn [out events final];
    by rewrite ?app_assoc.
Qed.

Lemma bind_ret {A B} (a : A) (k : A → M B) (w : world) : (mret a ≫= k) w = k a w.
Proof. rewrite run_bind. cbn. by destruct (k a w). Qed.

Lemma bind_return {A B} (code : Z) (k : A → M B) (w : world) :
  (return_ code ≫= k) w = Result [] w (Return code).
Proof. reflexivity. Qed.

Lemma bind_out_of_fuel {A B} (k : A → M B) (w : world) :
  (out_of_fuel ≫= k) w = Result [] w OutOfFuel.
Proof. reflexivity. Qed.

Lemma bind_emit {B} (e : event) (k : unit → M B) (w : world) :
  (emit e ≫= k) w = prepend [e] (k tt w).
Proof. reflexivity. Qed.

Lemma bind_invoke {B} (drv : driver) (c : call) (k : reply → M B) (w : world) :
  (invoke drv c ≫= k) w =
  prepend [Drv c (drv (hist w) c)]
    (k (drv (hist w) c)
       (World (hist w ++ [c])
              (foldl store_samples (heap w) (out_writes (drv (hist w) c)))
              (brk w))).
Proof. reflexivity. Qed.

Lemma bind_new_array {B} (len : Z) (k : ptr → M B) (w : world) :
  (new_array len ≫= k) w =
  prepend [NewArray (brk w) len]
    (k (brk w)
       (World (hist w) (<[brk w := replicate (Z.to_nat len) None]> (heap w))
              (N.succ (brk w)))).
Proof. reflexivity. Qed.

Lemma bind_delete_array {B} (p : ptr) (k : unit → M B) (w : world) :
  (delete_array p ≫= k) w =
  prepend [DeleteArray p] (k tt (World (hist w) (delete p (heap w)) (brk w))).
Proof. reflexivity. Qed.

Lemma bind_load {B} (p : ptr) (i : Z) (k : option Z → M B) (w : world) :
  (load p i ≫= k) w = prepend [Load p i] (k (read_cell (heap w) p i) w).
Proof. reflexivity. Qed.

Lemma bind_run_events {A B} (m : M A) (k : A → M B) (w : world) (a : A) :
  out (m w) = Next a →
  (m ≫= k) w = prepend (events (m w)) (k a (final (m w))).
Proof. intros H. rewrite run_bind, H. reflexivity. Qed.

Lemma bind_run_return {A B} (m : M A) (k : A → M B) (w : world) (code : Z) :
  out (m w) = Return code →
  (m ≫= k) w = Result (events (m w)) (final (m w)) (Return code).
Proof. intros H. rewrite run_bind, H. reflexivity. Qed.

(** Symbolic execution by rewriting: statements at the head of the program
    are executed one at a time; the driver, the heap operations and the loop
    are left alone, and a status test stops the execution until it is
    decided. *)
Ltac unfold_stmts :=
  unfold ps5000aOpenUnit, ps5000aChangePowerSource, ps5000aSetChannel,
    ps5000aSetDataBuffer, ps5000aGetTimebase, ps5000aSetSimpleTrigger,
    ps5000aSetSigGenBuiltInV2, ps5000aRunBlock, ps5000aIsReady, ps5000aStop,
    ps5000aCloseUnit, ps5000aGetValues, cin, cout, cout_error, Sleep,
    getStatusCode, skip.

Ltac run_step :=
  first
    [ rewrite bind_assoc
    | rewrite bind_ret
    | rewrite bind_return
    | rewrite bind_out_of_fuel
    | rewrite bind_emit
    | rewrite bind_invoke
    | rewrite bind_new_array
    | rewrite bind_delete_array
    | rewrite bind_load ].

Ltac run :=
  unfold_stmts;
  repeat (run_step; cbv beta iota);
  cbn [prepend return_ events final out hist heap brk app fst snd].

Lemma status_ok (st : PICO_STATUS) : ¬ PICO_OK ≠ st → st = PICO_OK.
Proof. intros H. by destruct (decide (st = PICO_OK)) as [|Hne]; [|destruct H]. Qed.

Section Polling.

Variable drv : driver.

Lemma wait_ready_done fuel handle isReady t w :
  isReady ≠ 0 →
  wait_ready drv (S fuel) handle isReady PICO_OK t w = Result [] w (Next t).
Proof.
  intros Hr. cbn [wait_ready].
  destruct (decide (0 = isReady ∧ PICO_OK = PICO_OK)) as [[? _]|_]; [congruence|].
  reflexivity.
Qed.

(** With fuel for every remaining loop test, the loop behaves as [polling]
    describes; in particular it never runs out of fuel. *)
Lemma wait_ready_polling fuel handle t w :
  0 ≤ t ≤ TIMEOUT_STOP + 1 →
  (Z.to_nat (TIMEOUT_STOP + 2 - t) ≤ fuel)%nat →
  polling handle t (events (wait_ready drv fuel handle 0 PICO_OK t w))
                   (out (wait_ready drv fuel handle 0 PICO_OK t w)).
Proof.
  revert t w. induction fuel as [|fuel IH]; intros t w Ht Hfuel.
  - unfold TIMEOUT_STOP in *. lia.
  - cbn [wait_ready].
    destruct (decide (0 = 0 ∧ PICO_OK = PICO_OK)) as [_|[]]; [|done].
    run. set (r := drv (hist w) (IsReady handle)).
    set (w' := World _ _ _).
    destruct (decide (PICO_OK ≠ status r)) as [Hst|Hst]; run.
    { by apply polling_error. }
    apply status_ok in Hst as Hok.
    destruct (decide (t > TIMEOUT_STOP)) as [Hto|Hto]; run.
    { by apply polling_timeout. }
    rewrite Hok.
    destruct (decide (out_isReady r = 0)) as [Hr|Hr].
    + rewrite Hr. apply polling_again; [done|lia|done|].
      apply IH; unfold TIMEOUT_STOP in *; lia.
    + destruct fuel as [|fuel]; [unfold TIMEOUT_STOP in *; lia|].
      rewrite wait_ready_done by done. run.
      apply polling_ready; [done|lia|done].
Qed.

End Polling.

Lemma polling_out handle t evs o :
  polling handle t evs o → (∃ t', o = Next t') ∨ o = Return (-1).
Proof. induction 1; eauto. Qed.

Lemma print_sample_run p i w :
  print_sample p i w
  = Result [Load p i;
            CoutSample i (read_cell (heap w) p i)
              ((λ v, adc_to_mv v PS5000A_2V MAX_ADC) <$> read_cell (heap w) p i)]
           w (Next tt).
Proof. reflexivity. Qed.

Lemma foldr_print_sample p ixs w :
  foldr (λ i rest, print_sample p i;; rest) skip ixs w
  = Result (sample_lines (heap w) p ixs) w (Next tt).
Proof.
  induction ixs as [|i ixs IH]; [done|].
  cbn [foldr]. rewrite run_bind, print_sample_run. cbn [out events final].
  rewrite IH. reflexivity.
Qed.

Lemma bind_for_upto {B} (n : Z) (p : ptr) (k : unit → M B) (w : world) :
  (for_upto n (print_sample p) ≫= k) w
  = prepend (sample_lines (heap w) p (seqZ 0 n)) (k tt w).
Proof. unfold for_upto. rewrite run_bind, foldr_print_sample. reflexivity. Qed.

(** ** Symbolic execution of [main] *)

Ltac case_status_as H :=
  match goal with
  | |- context [decide (PICO_OK ≠ ?s)] =>
      destruct (decide (PICO_OK ≠ s)) as [H|H]; [|apply status_ok in H]; run
  end.

Lemma PICO_OK_not_power_supply :
  PICO_OK ≠ PICO_POWER_SUPPLY_NOT_CONNECTED.
Proof. done. Qed.

(** A reply cannot be both [PICO_OK] and power-supply-not-connected. *)
Ltac absurd_status :=
  exfalso;
  match goal with
  | H1 : status ?r = PICO_OK, H2 : PICO_POWER_SUPPLY_NOT_CONNECTED = status ?r |- _ =>
      rewrite H1 in H2; exact (PICO_OK_not_power_supply (eq_sym H2))
  end.

Ltac case_test :=
  match goal with
  | |- context [decide (PICO_OK ≠ ?s)] =>
      let H := fresh "Hst" in case_status_as H
  | |- context [@decide ?P ?d] =>
      let H := fresh "Hif" in
      destruct (@decide P d) as [H|H]; try (by exfalso); try absurd_status; run
  end.

(** At the polling loop: replace the loop by its [polling] description. *)
Ltac run_polling Hpoll :=
  match goal with
  | Hok : ?s = PICO_OK |- context [(wait_ready ?d ?f ?h 0 ?s 0 ≫= ?k) ?w] =>
      rewrite Hok;
      let Ho := fresh "Ho" in
      let t' := fresh "time_acq" in
      pose proof (wait_ready_polling d f h 0 w ltac:(done) ltac:(done)) as Hpoll;
      destruct (polling_out _ _ _ _ Hpoll) as [[t' Ho]|Ho];
      [ rewrite (bind_run_events _ _ _ _ Ho)
      | rewrite (bind_run_return _ _ _ _ Ho) ];
      rewrite Ho in Hpoll;
      generalize dependent (events (wait_ready d f h 0 PICO_OK 0 w));
      intros ? Hpoll;
      try (generalize (final (wait_ready d f h 0 PICO_OK 0 w)); intros ?);
      clear Ho; run
  end.

(** The reply of the driver is an arbitrary value for what follows. *)
Ltac forget_replies drv :=
  repeat match goal with
  | |- context [drv ?h ?c] =>
      let r := fresh "r" in generalize (drv h c); intros r
  end.

Ltac run_main drv Hpoll :=
  unfold main, main_body, init; run; forget_replies drv;
  repeat first
    [ run_polling Hpoll; forget_replies drv
    | rewrite !bind_for_upto; run; forget_replies drv
    | case_test; forget_replies drv ].

(** ** Termination *)


(** ** Properties of every event of a run *)

Lemma Forall_calls_of (P : call → Prop) tr :
  Forall (on_call P) tr → Forall (λ cr, P cr.1) (calls_of tr).
Proof.
  induction 1 as [|e tr He _ IH]; [constructor|].
  destruct e; cbn; try done. by constructor.
Qed.

Lemma polling_loop_events handle t evs o :
  polling handle t evs o → Forall (loop_event handle) evs.
Proof. induction 1; repeat constructor; done. Qed.

Lemma sample_lines_events h p ixs : Forall sample_event (sample_lines h p ixs).
Proof. apply Forall_bind, Forall_forall. intros i _. by repeat constructor. Qed.

(** [Forall P] over the trace of a run: the concrete events are checked one
    by one, the events of the loop and of the sample listing through
    [loop_event] and [sample_event]. *)
Ltac event_ok :=
  cbn in *; first [ done | by intro | by intros [] | by simplify_eq ].

Ltac forall_events :=
  repeat first
    [ apply Forall_nil_2
    | apply Forall_cons_2; [event_ok|]
    | apply Forall_app_2
    | by (eapply Forall_impl; [by eapply polling_loop_events|];
          let e := fresh "e" in let c := fresh "c" in
          intros e ?; destruct e as [c ?| | | | | | | | | |];
          try destruct c; event_ok)
    | by (eapply Forall_impl; [by apply sample_lines_events|];
          let e := fresh "e" in intros e ?; destruct e; event_ok) ].

(** ** Sample counts *)

(** C10: in every run the buffers are registered for, and retrieval asks for,
    [NO_OF_SAMPLES = 100] samples, while the capture is started with 10
    pre-trigger and [NO_OF_SAMPLES - 11 = 89] post-trigger samples: 99 in
    total, one fewer than [NO_OF_SAMPLES]. *)
Theorem sample_counts_of_run drv stdin :
  NO_OF_SAMPLES = 100
  ∧ Forall (λ cr, sample_counts cr.1) (calls_of (events (main drv stdin))).
Proof.
  split; [done|]. apply Forall_calls_of.
  run_main drv Hpoll; cbn [prepend events final out app]; solve [forall_events].
Qed.

(** ** Fail-fast error handling *)

Lemma each_with_rest_split P tr :
  each_with_rest P tr ↔ ∀ pre e post, tr = pre ++ e :: post → P e post.
Proof.
  induction tr as [|e' tr IH]; cbn [each_with_rest].
  - split; [|done]. intros _ [|??] ?? ?; done.
  - rewrite IH. split.
    + intros [He Htr] [|e0 pre] e post Heq; simplify_eq/=; eauto.
    + intros H. split; [by apply (H []) | intros pre e post ->; by apply (H (e' :: pre))].
Qed.

Lemma each_with_rest_app P l tail :
  Forall (λ e, ∀ rest, P e rest) l → each_with_rest P tail →
  each_with_rest P (l ++ tail).
Proof. induction 1; cbn [app each_with_rest]; auto. Qed.

Lemma ok_event_after_failure code e :
  ok_event e → ∀ rest, after_failure code e rest.
Proof.
  destruct e as [c r| | | | | | | | | |]; cbn; try done.
  destruct c; intros Hok rest [[Hne _]|[? ?]]; done.
Qed.

Lemma polling_next_ok handle t evs t' :
  polling handle t evs (Next t') → Forall ok_event evs.
Proof.
  remember (Next t') as o eqn:Ho. induction 1; simplify_eq; repeat constructor; auto.
Qed.

Lemma polling_return_fail_fast handle t evs code :
  polling handle t evs (Return code) →
  each_with_rest (after_failure (Some (-1))) evs.
Proof.
  remember (Return code) as o eqn:Ho.
  induction 1; simplify_eq; cbn [each_with_rest after_failure]; split_and?;
    try done; try (by intros [[Hne _]|[? ?]]); try by (intros _; cbn; eauto).
  by apply IHpolling.
Qed.

Ltac fail_fast_leaf :=
  unfold fail_fast_run;
  cbn [prepend events final out exit_code app each_with_rest after_failure];
  repeat first
    [ exact I
    | apply conj
    | by eapply polling_return_fail_fast
    | apply each_with_rest_app;
        [ eapply Forall_impl; [by eapply polling_next_ok|];
          intros ??; by apply ok_event_after_failure |] 
    | apply each_with_rest_app;
        [ by apply Forall_bind; apply Forall_forall; intros; repeat constructor |]
    | by (intros [[Hne Hopen]|[? ?]]; first [ done | destruct Hopen; done ])
    | by (intros _; split; [cbn; eauto | done]) ].

Lemma main_fail_fast drv stdin : fail_fast_run (main drv stdin).
Proof.
  run_main drv Hpoll; fail_fast_leaf.
Qed.

(** C1, as the program has it.  A driver call ends the workflow when it
    fails (any status other than [PICO_OK], power-supply-not-connected from
    open excepted) and when it is the stop call of the timeout path, whose
    status is discarded.  After such a call the run returns -1 and the call
    is not issued again.  No driver call at all follows a failed call other
    than stop; after stop, whatever its status, exactly one call, close,
    follows. *)
Theorem fail_fast_checked_calls drv stdin pre c r post :
  events (main drv stdin) = pre ++ Drv c r :: post →
  fatal c r ∨ (∃ handle, c = Stop handle) →
  exit_code (main drv stdin) = Some (-1)
  ∧ calls_after_failure c post
  ∧ c ∉ (calls_of post).*1.
Proof.
  intros Hsplit Hends.
  pose proof (main_fail_fast drv stdin) as H. unfold fail_fast_run in H.
  rewrite each_with_rest_split in H.
  destruct (H pre (Drv c r) post Hsplit Hends) as [Hcalls Hcode].
  split_and!; [done..|].
  destruct c; cbn in Hcalls; try (rewrite Hcalls; apply not_elem_of_nil).
  destruct Hcalls as [r_close ->]. cbn. by intros [=]%list_elem_of_singleton.
Qed.

Lemma fail_fast_checked_calls_witness :
  (let drv := stub_driver (Stub (fails_at is_IsReady 1) 5 0 [] []) in
   let pre := take 13 (events (main drv "s")) in
   let post := [CoutError "IsReady Issue" 1; GetStatusCode 1] in
   events (main drv "s") = pre ++ Drv (IsReady 1) r_fail :: post
   ∧ (fatal (IsReady 1) r_fail ∨ ∃ handle, IsReady 1 = Stop handle)
   ∧ exit_code (main drv "s") = Some (-1)
   ∧ calls_after_failure (IsReady 1) post
   ∧ IsReady 1 ∉ (calls_of post).*1)
  ∧ (let drv := stub_driver (never_ready all_ok) in
     let r_ok := Reply PICO_OK 0 0 0 [] in
     let pre := take 4016 (events (main drv "s")) in
     let post := drop 4017 (events (main drv "s")) in
     events (main drv "s") = pre ++ Drv (Stop 1) r_ok :: post
     ∧ (fatal (Stop 1) r_ok ∨ ∃ handle, Stop 1 = Stop handle)
     ∧ exit_code (main drv "s") = Some (-1)
     ∧ calls_after_failure (Stop 1) post
     ∧ Stop 1 ∉ (calls_of post).*1).
Proof.
  split.
  - intros drv pre post.
    assert (events (main drv "s") = pre ++ Drv (IsReady 1) r_fail :: post)
      as Hsplit by (vm_compute; reflexivity).
    assert (fatal (IsReady 1) r_fail ∨ ∃ handle, IsReady 1 = Stop handle)
      as Hends.
    { left. split; [vm_compute; discriminate | intros [[] _]]. }
    split; [exact Hsplit|]. split; [exact Hends|].
    exact (fail_fast_checked_calls drv "s" pre (IsReady 1) r_fail post
             Hsplit Hends).
  - intros drv r_ok pre post.
    assert (events (main drv "s") = pre ++ Drv (Stop 1) r_ok :: post)
      as Hsplit by (vm_compute; reflexivity).
    assert (fatal (Stop 1) r_ok ∨ ∃ handle, Stop 1 = Stop handle) as Hends
      by (right; exists 1; reflexivity).
    split; [exact Hsplit|]. split; [exact Hends|].
    exact (fail_fast_checked_calls drv "s" pre (Stop 1) r_ok post
             Hsplit Hends).
Defined.

(** The claim C1 as stated fails for the stop call of the timeout path: with
    a driver that never reports ready and fails stop, the failed stop is
    followed by another driver call (close). *)
Lemma stop_failure_does_not_end_the_calls :
  ¬ fail_fast_at_every_call (main (stub_driver (never_ready (fails_at is_Stop 1))) "s").
Proof.
  intros H.
  set (res := main (stub_driver (never_ready (fails_at is_Stop 1))) "s") in *.
  destruct (H (take 4016 (events res)) (Stop 1) r_fail (drop 4017 (events res)))
    as [Hcalls _].
  - vm_compute. reflexivity.
  - split; [vm_compute; discriminate | intros [[] _]].
  - vm_compute in Hcalls. discriminate.
Qed.

(** ** Power source negotiation *)

Ltac power_leaf :=
  unfold power_negotiation; cbn [prepend events final out exit_code app];
  eexists _, _; split; [reflexivity|]; split;
  [ intros ?; first [done | solve [forall_events]]
  | intros ?; first [done |
      eexists _, _; split; [reflexivity|]; split; [solve [forall_events]|]; split;
      [ intros ?; first [done | by cbn]
      | intros ?; first [done | by eexists _, _] ] ] ].

Lemma main_power_negotiation drv stdin : power_negotiation (main drv stdin).
Proof. run_main drv Hpoll; power_leaf. Qed.

(** C8: the first event of every run is the reply to open.  If its status is
    not power-supply-not-connected, no power-source change is ever requested.
    If it is, the program reports it and requests the change exactly once;
    when that request fails no further driver call is made and the exit code
    is -1, and when it succeeds the workflow goes on with the configuration
    of channel A. *)
Theorem power_source_remediation drv stdin :
  ∃ r_open rest,
    events (main drv stdin) = Drv (OpenUnit PS5000A_DR_15BIT) r_open :: rest
    ∧ (status r_open ≠ PICO_POWER_SUPPLY_NOT_CONNECTED →
       Forall (on_call (λ c, ¬ is_ChangePowerSource c)) rest)
    ∧ (status r_open = PICO_POWER_SUPPLY_NOT_CONNECTED →
       ∃ r_power rest',
         rest = CoutError "Open Unit" (status r_open)
                :: GetStatusCode (status r_open)
                :: Drv (ChangePowerSource (out_handle r_open) (status r_open)) r_power
                :: rest'
         ∧ Forall (on_call (λ c, ¬ is_ChangePowerSource c)) rest'
         ∧ (status r_power ≠ PICO_OK →
            calls_of rest' = [] ∧ exit_code (main drv stdin) = Some (-1))
         ∧ (status r_power = PICO_OK →
            ∃ r_a rest'',
              rest' = Drv (SetChannel (out_handle r_open) PS5000A_CHANNEL_A 1
                             PS5000A_DC PS5000A_1V 0) r_a :: rest'')).
Proof. exact (main_power_negotiation drv stdin). Qed.

(** ** The user confirmation gate *)

Lemma split_here {A} (x : A) post : x :: post = [] ++ x :: post.
Proof. reflexivity. Qed.

Lemma split_cons {A} (e x : A) tl pre post :
  tl = pre ++ x :: post → e :: tl = (e :: pre) ++ x :: post.
Proof. by intros ->. Qed.

(** Find the first place where the trace matches [?pre ++ x :: ?post]. *)
Ltac split_trace := repeat first [ apply split_here | apply split_cons ].




(** ** The shape of a run around the polling loop *)

Lemma split_here_nil {A} (x : A) l : x :: l = [] ++ x :: l ++ [].
Proof. by rewrite app_nil_r. Qed.

Ltac split_trace_loop :=
  repeat first [ apply split_here | apply split_here_nil | apply split_cons ].

Ltac shape_leaf :=
  unfold polling_shape; cbn [prepend events final out exit_code app];
  first
    [ left; solve [forall_events]
    | right; eexists _, _, _, _, _, _; split; [solve [split_trace_loop]|];
      split; [done|]; split; [solve [forall_events]|]; split; [eassumption|];
      first
        [ left; by split_and!
        | right; eexists _, _; split; [reflexivity|]; split; [reflexivity|];
          solve [forall_events] ] ].

Lemma main_polling_shape drv stdin : polling_shape (main drv stdin).
Proof. run_main drv Hpoll; shape_leaf. Qed.

(** ** The polling loop *)

Lemma omap_quiet {A} (f : event → option A) (P : event → Prop) tr :
  (∀ e, P e → f e = None) → Forall P tr → omap f tr = [].
Proof.
  intros Hf. induction 1 as [|e tr He _ IH]; [done|].
  cbn. by rewrite (Hf e He).
Qed.

Ltac by_event := intros [[] ?| | | | | | | | | |]; cbn; by intros.

Lemma before_loop_ready e : before_loop e → ready_reply e = None.
Proof. revert e. by_event. Qed.
Lemma before_loop_sleep e : before_loop e → sleep_of e = None.
Proof. revert e. by_event. Qed.
Lemma before_loop_counter n e : before_loop e → counter_is n e.
Proof. revert e. by_event. Qed.
Lemma before_loop_polled qs e : before_loop e → polled_after qs e.
Proof. revert e. by_event. Qed.
Lemma after_loop_ready e : after_loop e → ready_reply e = None.
Proof. revert e. by_event. Qed.
Lemma after_loop_sleep e : after_loop e → sleep_of e = None.
Proof. revert e. by_event. Qed.
Lemma after_loop_counter n e : after_loop e → counter_is n e.
Proof. revert e. by_event. Qed.
Lemma after_loop_polled qs e : after_loop e → polled_after qs e.
Proof. revert e. by_event. Qed.
Lemma loop_event_counter handle n e : loop_event handle e → counter_is n e.
Proof. revert e. by_event. Qed.
Lemma loop_event_polled handle qs e : loop_event handle e → polled_after qs e.
Proof. revert e. by_event. Qed.

(** The replies [qs] to the readiness queries and the sleeps [naps] of a loop
    that starts with the counter at [t]. *)
Lemma polling_queries handle t evs o :
  polling handle t evs o →
  let qs : list reply := omap ready_reply evs in
  let naps : list Z := omap sleep_of evs in
  qs ≠ []
  ∧ (length naps ≤ length qs)%nat
  ∧ Forall (λ ms, ms = 1) naps
  ∧ (∀ (i : nat) q, qs !! i = Some q →
       (is_Some (qs !! S i)
        ↔ status q = PICO_OK ∧ out_isReady q = 0 ∧ t + Z.of_nat i ≤ TIMEOUT_STOP)
       ∧ (is_Some (naps !! i) ↔ status q = PICO_OK ∧ t + Z.of_nat i ≤ TIMEOUT_STOP))
  ∧ (∀ t', o = Next t' → t' = t + Z.of_nat (length naps)).
Proof.
  induction 1 as [t r Hok Ht Hr|t r evs o Hok Ht Hr _ IH|t r Hst|t r rs rc Hok Ht];
    cbn [omap list_omap ready_reply sleep_of].
  - split_and!; [done|cbn; lia|by repeat constructor| |by intros ? [= <-]; cbn; lia].
    intros [|i] q; cbn; [intros [= <-]|done]. split.
    + split; [by intros [? [=]]|]. by intros (_ & ? & _).
    + split; [intros _; split; [done|lia]|by eexists].
  - destruct IH as (Hne & Hlen & Hone & Hix & Hnext).
    split_and!; [done|cbn; lia|by constructor| |].
    + intros [|i] q; cbn.
      * intros [= <-]. split.
        -- split; [intros _; split_and!; [done..|lia]|].
           intros _. destruct (omap ready_reply evs); [done|by eexists].
        -- split; [intros _; split; [done|lia]|by eexists].
      * intros Hq. destruct (Hix i q Hq) as [H1 H2].
        rewrite H1, H2. split; split; intros; split_and!; try tauto; lia.
    + intros t' ->. rewrite (Hnext t' eq_refl). cbn. lia.
  - split_and!; [done|cbn; lia|constructor| |done].
    intros [|i] q; cbn; [intros [= <-]|done]. split.
    + split; [by intros [? [=]]|]. by intros (? & _).
    + split; [by intros [? [=]]|]. by intros (? & _).
  - split_and!; [done|cbn; lia|constructor| |done].
    intros [|i] q; cbn; [intros [= <-]|done]. split.
    + split; [by intros [? [=]]|]. intros (_ & _ & ?). lia.
    + split; [by intros [? [=]]|]. intros (_ & ?). lia.
Qed.

(** C2: [qs] are the replies to the readiness queries of a run and [naps] its
    sleeps, both in order.  A successful [RunBlock] is followed by at least
    one query.  After the query number [i] (counting from 0, which is the
    value of the counter when it is made) another query is made exactly when
    the reply is [PICO_OK], reports not ready, and [i] does not exceed
    [TIMEOUT_STOP].  Iteration [i] sleeps exactly when its reply is [PICO_OK]
    and [i] does not exceed [TIMEOUT_STOP], every sleep is 1 ms, and the
    counter printed after the loop is the number of sleeps. *)
Theorem polling_loop_discipline drv stdin :
  let tr := events (main drv stdin) in
  let qs : list reply := omap ready_reply tr in
  let naps : list Z := omap sleep_of tr in
  Forall (polled_after qs) tr
  ∧ (∀ (i : nat) q, qs !! i = Some q →
       (is_Some (qs !! S i)
        ↔ status q = PICO_OK ∧ out_isReady q = 0 ∧ Z.of_nat i ≤ TIMEOUT_STOP))
  ∧ (∀ (i : nat) q, qs !! i = Some q →
       (is_Some (naps !! i) ↔ status q = PICO_OK ∧ Z.of_nat i ≤ TIMEOUT_STOP))
  ∧ Forall (λ ms, ms = 1) naps
  ∧ (length naps ≤ length qs)%nat
  ∧ Forall (counter_is (Z.of_nat (length naps))) tr.
Proof.
  intros tr qs naps. subst tr qs naps.
  destruct (main_polling_shape drv stdin)
    as [Hpre|(pre & h & r_run & l & o & post & -> & Hrun & Hpre & Hpoll & Hend)].
  - rewrite (omap_quiet ready_reply before_loop _ before_loop_ready Hpre).
    rewrite (omap_quiet sleep_of before_loop _ before_loop_sleep Hpre).
    split_and!; [|done|done|constructor|done|].
    + eapply Forall_impl; [done|]. apply before_loop_polled.
    + eapply Forall_impl; [done|]. apply before_loop_counter.
  - assert (omap ready_reply post = [] ∧ omap sleep_of post = []
            ∧ (∀ qs, Forall (polled_after qs) post)
            ∧ ∀ t', o = Next t' → Forall (counter_is t') post)
      as (Hq & Hs & Hp & Hc).
    { destruct Hend as [(-> & -> & _)|(t' & post' & -> & -> & Hpost)].
      - by split_and!.
      - cbn [omap list_omap ready_reply sleep_of].
        rewrite (omap_quiet ready_reply after_loop _ after_loop_ready Hpost).
        rewrite (omap_quiet sleep_of after_loop _ after_loop_sleep Hpost).
        split_and!; [done..| |].
        + intros qs. constructor; [done|].
          eapply Forall_impl; [done|]. apply after_loop_polled.
        + intros ? [= <-]. constructor; [done|].
          eapply Forall_impl; [done|]. apply after_loop_counter. }
    destruct (polling_queries _ _ _ _ Hpoll) as (Hne & Hlen & Hone & Hix & Hnext).
    rewrite !omap_app. cbn [omap list_omap ready_reply sleep_of].
    rewrite !omap_app, Hq, Hs, !app_nil_r.
    rewrite (omap_quiet ready_reply before_loop _ before_loop_ready Hpre).
    rewrite (omap_quiet sleep_of before_loop _ before_loop_sleep Hpre).
    cbn [app].
    setoid_rewrite Z.add_0_l in Hix. setoid_rewrite Z.add_0_l in Hnext.
    split_and!; [|by intros i q [? ?]%Hix|by intros i q [? ?]%Hix|done..|].
    + apply Forall_app_2; [|constructor; [by cbn|]; apply Forall_app_2; [|done]].
      * eapply Forall_impl; [done|]. apply before_loop_polled.
      * eapply Forall_impl; [by eapply polling_loop_events|].
        apply loop_event_polled.
    + apply Forall_app_2; [|constructor; [by cbn|]; apply Forall_app_2].
      * eapply Forall_impl; [done|]. apply before_loop_counter.
      * eapply Forall_impl; [by eapply polling_loop_events|].
        apply loop_event_counter.
      * destruct o as [t'| |]; [|by destruct Hend as [(_ & -> & _)|(? & ? & [=] & _)]..].
        rewrite <- (Hnext t' eq_refl). by apply Hc.
Qed.

(** ** The timeout path *)

Lemma before_loop_not_Load e : before_loop e → not_Load e.
Proof. revert e. by_event. Qed.
Lemma loop_event_not_Load handle e : loop_event handle e → not_Load e.
Proof. revert e. by_event. Qed.

(** A query answered [PICO_OK] while the counter is over the ceiling is the
    last one, and the loop leaves [main] through stop and close. *)
Lemma polling_timeout_tail handle t evs o :
  polling handle t evs o →
  ∀ (i : nat) q,
    omap ready_reply evs !! i = Some q →
    status q = PICO_OK → t + Z.of_nat i > TIMEOUT_STOP →
    o = Return (-1)
    ∧ ∃ pre r_stop r_close, evs = pre ++ timeout_tail handle q r_stop r_close.
Proof.
  induction 1 as [t r Hok Ht Hr|t r evs o Hok Ht Hr _ IH|t r Hst|t r rs rc Hok Ht];
    cbn [omap list_omap ready_reply]; intros [|i] q; cbn; try done.
  - intros [= <-] _ ?. lia.
  - intros [= <-] _ ?. lia.
  - intros Hq Hq_ok Hi.
    destruct (IH i q Hq Hq_ok ltac:(lia)) as (-> & pre & r_stop & r_close & ->).
    split; [done|]. by exists (Drv (IsReady handle) r :: SleepMs 1 :: pre), r_stop, r_close.
  - by intros [= <-] ?.
  - intros [= <-] _ _. split; [done|]. by exists [], rs, rc.
Qed.

(** C3: when a readiness query is answered [PICO_OK] with the counter over
    [TIMEOUT_STOP] (the query number [i], counting from 0, is made with the
    counter at [i]), the run ends with stop, then close, then the "TIMEOUT"
    report; the exit code is -1 and no sample buffer is read anywhere in the
    run. *)
Theorem timeout_stops_then_closes drv stdin (i : nat) q :
  omap ready_reply (events (main drv stdin)) !! i = Some q →
  status q = PICO_OK →
  Z.of_nat i > TIMEOUT_STOP →
  (∃ pre handle r_stop r_close,
     events (main drv stdin) = pre ++ timeout_tail handle q r_stop r_close)
  ∧ exit_code (main drv stdin) = Some (-1)
  ∧ Forall not_Load (events (main drv stdin)).
Proof.
  destruct (main_polling_shape drv stdin)
    as [Hpre|(pre & h & r_run & l & o & post & -> & Hrun & Hpre & Hpoll & Hend)].
  - by rewrite (omap_quiet ready_reply before_loop _ before_loop_ready Hpre).
  - rewrite omap_app. cbn [omap list_omap ready_reply]. rewrite omap_app.
    rewrite (omap_quiet ready_reply before_loop _ before_loop_ready Hpre).
    cbn [app]. intros Hq Hq_ok Hi.
    assert (omap ready_reply post = []) as Hpost.
    { destruct Hend as [(_ & -> & _)|(t' & post' & _ & -> & Hpost)]; [done|].
      cbn [omap list_omap ready_reply].
      apply (omap_quiet ready_reply after_loop _ after_loop_ready Hpost). }
    rewrite Hpost, app_nil_r in Hq.
    destruct (polling_timeout_tail _ _ _ _ Hpoll i q Hq Hq_ok ltac:(lia))
      as (-> & pre' & r_stop & r_close & ->).
    destruct Hend as [(_ & -> & Hcode)|(? & ? & [=] & _)].
    split_and!; [|done|].
    + exists (pre ++ Drv (RunBlock h 10 (NO_OF_SAMPLES - 11) TIMEBASE 0) r_run :: pre'),
        h, r_stop, r_close.
      by rewrite app_nil_r, <- app_assoc.
    + rewrite app_nil_r. apply Forall_app_2; [|constructor; [done|]].
      * eapply Forall_impl; [done|]. apply before_loop_not_Load.
      * eapply Forall_impl; [by eapply polling_loop_events|].
        apply loop_event_not_Load.
Qed.

Lemma timeout_stops_then_closes_witness :
  let drv := stub_driver (never_ready all_ok) in
  let q := Reply PICO_OK 0 0 0 [] in
  omap ready_reply (events (main drv "s")) !! 2001%nat = Some q
  ∧ status q = PICO_OK
  ∧ Z.of_nat 2001 > TIMEOUT_STOP
  ∧ (∃ pre handle r_stop r_close,
       events (main drv "s") = pre ++ timeout_tail handle q r_stop r_close)
  ∧ exit_code (main drv "s") = Some (-1)
  ∧ Forall not_Load (events (main drv "s")).
Proof.
  intros drv q.
  assert (omap ready_reply (events (main drv "s")) !! 2001%nat = Some q) as Hq
    by (vm_compute; reflexivity).
  assert (status q = PICO_OK) as Hok by reflexivity.
  assert (Z.of_nat 2001 > TIMEOUT_STOP) as Hi by (vm_compute; reflexivity).
  split; [exact Hq|]. split; [exact Hok|]. split; [exact Hi|].
  exact (timeout_stops_then_closes drv "s" 2001 q Hq Hok Hi).
Defined.

(** ** Retrieval and the sample listing *)

Lemma loop_event_listing handle e :
  loop_event handle e → ∀ rest, listing_after e rest.
Proof. revert e. by_event. Qed.

Lemma sample_event_listing e : sample_event e → ∀ rest, listing_after e rest.
Proof. revert e. by_event. Qed.

Lemma each_with_rest_Forall P l :
  Forall (λ e, ∀ rest, P e rest) l → each_with_rest P l.
Proof. induction 1; cbn [each_with_rest]; auto. Qed.

Ltac listing_leaf :=
  unfold listing_run;
  cbn [prepend events final out exit_code app each_with_rest listing_after];
  repeat first
    [ exact I
    | apply conj
    | reflexivity
    | apply each_with_rest_app;
        [ eapply Forall_impl; [by eapply polling_loop_events|];
          apply loop_event_listing |]
    | apply each_with_rest_app;
        [ eapply Forall_impl; [by apply sample_lines_events|];
          apply sample_event_listing |]
    | apply each_with_rest_Forall;
        eapply Forall_impl; [by eapply polling_loop_events|];
        apply loop_event_listing
    | by intros ?
    | intros _; eexists _, _, _, _, _; split; [reflexivity|];
      solve [forall_events] ].

Lemma main_listing drv stdin : listing_run (main drv stdin).
Proof. run_main drv Hpoll; listing_leaf. Qed.

Lemma sample_lines_indices h p ixs :
  omap sample_index (sample_lines h p ixs) = ixs.
Proof.
  induction ixs as [|i ixs IH]; [done|].
  unfold sample_lines in *. cbn. by rewrite IH.
Qed.

(** C6: retrieval asks for [NO_OF_SAMPLES] samples from index 0.  When it
    succeeds, everything that follows is determined by the count
    [out_noSamples r] that the driver returned, whatever its relation to the
    requested count: the listing of buffer A and the listing of buffer B
    each load and print exactly the cells [0 .. out_noSamples r - 1], in
    order, and only the release of the buffers, close and possibly its error
    report come after. *)
Theorem listing_bounded_by_returned_count
    drv stdin pre handle startIndex noOfSamples ratio mode segment r post :
  events (main drv stdin)
  = pre ++ Drv (GetValues handle startIndex noOfSamples ratio mode segment) r
        :: post →
  status r = PICO_OK →
  startIndex = 0 ∧ noOfSamples = NO_OF_SAMPLES
  ∧ listing handle (out_noSamples r) post
  ∧ omap sample_index post
    = seqZ 0 (out_noSamples r) ++ seqZ 0 (out_noSamples r).
Proof.
  intros Hsplit Hok.
  pose proof (main_listing drv stdin) as H. unfold listing_run in H.
  rewrite each_with_rest_split in H.
  destruct (H _ _ _ Hsplit) as (-> & -> & Hlist).
  specialize (Hlist Hok). split_and!; [done..|].
  destruct Hlist as (h & bufferA & bufferB & r_close & report & -> & Hreport).
  cbn [omap list_omap sample_index]. rewrite omap_app, sample_lines_indices.
  cbn [omap list_omap sample_index]. rewrite omap_app, sample_lines_indices.
  cbn [omap list_omap sample_index].
  rewrite (omap_quiet sample_index report_event); [by rewrite app_nil_r| |done].
  by intros [].
Qed.

Lemma listing_bounded_by_returned_count_witness :
  let drv := stub_driver three_samples in
  let tr := events (main drv "start") in
  let r := Reply PICO_OK 0 0 3 [(0%N, [32767; -32767; 0]); (1%N, [100; 200; 300])] in
  tr = take 22 tr
       ++ Drv (GetValues 1 0 NO_OF_SAMPLES 1 PS5000A_RATIO_MODE_NONE 0) r
       :: drop 23 tr
  ∧ status r = PICO_OK
  ∧ 0 = 0 ∧ NO_OF_SAMPLES = NO_OF_SAMPLES
  ∧ listing 1 (out_noSamples r) (drop 23 tr)
  ∧ omap sample_index (drop 23 tr)
    = seqZ 0 (out_noSamples r) ++ seqZ 0 (out_noSamples r).
Proof.
  intros drv tr r.
  assert (tr = take 22 tr
               ++ Drv (GetValues 1 0 NO_OF_SAMPLES 1 PS5000A_RATIO_MODE_NONE 0) r
               :: drop 23 tr) as Hsplit by (vm_compute; reflexivity).
  assert (status r = PICO_OK) as Hok by reflexivity.
  split; [exact Hsplit|]. split; [exact Hok|].
  exact (listing_bounded_by_returned_count drv "start" _ _ _ _ _ _ _ r _ Hsplit Hok).
Defined.

(** ** ADC codes to millivolts *)

Lemma adc_to_mv_zero range max_adc : adc_to_mv 0 range max_adc = 0.
Proof. unfold adc_to_mv. rewrite Z.mul_0_l. by destruct max_adc. Qed.

Lemma adc_to_mv_full_scale range max_adc :
  max_adc ≠ 0 → adc_to_mv max_adc range max_adc = inputRanges range.
Proof.
  intros Hmax. unfold adc_to_mv.
  by rewrite Z.mul_comm, Z.quot_mul.
Qed.

Lemma adc_to_mv_negative_full_scale range max_adc :
  max_adc ≠ 0 → adc_to_mv (- max_adc) range max_adc = - inputRanges range.
Proof.
  intros Hmax. unfold adc_to_mv.
  by rewrite Z.mul_opp_l, Z.quot_opp_l, Z.mul_comm, Z.quot_mul.
Qed.

Lemma inputRanges_pos range : 0 < inputRanges range.
Proof. by destruct range. Qed.

Lemma adc_to_mv_monotone raw raw' range max_adc :
  0 < max_adc → raw ≤ raw' →
  adc_to_mv raw range max_adc ≤ adc_to_mv raw' range max_adc.
Proof.
  intros Hmax Hle. unfold adc_to_mv.
  apply Z.quot_le_mono; [done|].
  apply Z.mul_le_mono_nonneg_r; [|done].
  pose proof (inputRanges_pos range). lia.
Qed.

(** C5: channels A and B are configured with the 1 V range, but every sample
    is converted with the 2 V range: in the run of [three_samples] the
    full-scale code 32767 of channel A is printed as 2000 mV, where the
    configured range gives 1000 mV. *)
Theorem samples_converted_with_another_range :
  let tr := events (main (stub_driver three_samples) "start") in
  omap configured_range tr
  = [(PS5000A_CHANNEL_A, PS5000A_1V); (PS5000A_CHANNEL_B, PS5000A_1V)]
  ∧ omap sample_line tr
    = [(0, Some 32767, Some 2000); (1, Some (-32767), Some (-2000));
       (2, Some 0, Some 0);
       (0, Some 100, Some 6); (1, Some 200, Some 12); (2, Some 300, Some 18)]
  ∧ adc_to_mv 32767 PS5000A_1V MAX_ADC = 1000
  ∧ adc_to_mv 32767 PS5000A_2V MAX_ADC = 2000.
Proof. vm_compute. done. Qed.

(** ** Teardown on the error paths *)

Lemma live_until_retrieved_loop handle l rest :
  Forall (loop_event handle) l →
  live_until_retrieved rest → live_until_retrieved (l ++ rest).
Proof.
  induction 1 as [|e l He _ IH]; [done|]. intros Hrest.
  destruct e as [[] ?| | | | | | | | | |]; cbn in *; by auto.
Qed.

Lemma live_until_retrieved_loop_end handle l :
  Forall (loop_event handle) l → live_until_retrieved l.
Proof.
  intros Hl. rewrite <- (app_nil_r l). by eapply live_until_retrieved_loop.
Qed.

Ltac live_leaf :=
  cbn [prepend events final out exit_code app live_until_retrieved];
  repeat first
    [ exact I
    | by left
    | right
    | eapply live_until_retrieved_loop_end; by eapply polling_loop_events
    | eapply live_until_retrieved_loop; [by eapply polling_loop_events|];
      cbn [live_until_retrieved] ].

(** In every run, no buffer is released between the registration of the
    buffers and a successful retrieval. *)
Lemma buffers_live_until_retrieved drv stdin :
  live_until_retrieved (events (main drv stdin)).
Proof. run_main drv Hpoll; live_leaf. Qed.

(** C4: the session is opened (handle 1) and the configuration of channel A
    fails; the run returns -1 and these are all its driver calls: the session
    is never closed. *)
Theorem close_skipped_when_setup_fails :
  let res := main (stub_driver (Stub (fails_at is_SetChannel 1) 0 0 [] [])) "s" in
  calls_of (events res)
  = [(OpenUnit PS5000A_DR_15BIT, Reply PICO_OK 1 0 0 []);
     (SetChannel 1 PS5000A_CHANNEL_A 1 PS5000A_DC PS5000A_1V 0, Reply 1 0 0 0 [])]
  ∧ exit_code res = Some (-1).
Proof. vm_compute. done. Qed.

(** C9: retrieval fails after a completed capture; the run returns -1 and
    the only heap events are the two allocations: both buffers are still
    allocated when [main] returns. *)
Theorem buffers_kept_when_retrieval_fails :
  let res := main (stub_driver (Stub (fails_at is_GetValues 1) 0 0 [] [])) "s" in
  omap heap_event (events res) = [NewArray 0%N 100; NewArray 1%N 100]
  ∧ exit_code res = Some (-1)
  ∧ is_Some (heap (final res) !! 0%N)
  ∧ is_Some (heap (final res) !! 1%N).
Proof. vm_compute. split_and!; by eauto. Qed.

(** ** Example runs *)

(** The scenario of the spec: the capture completes at the fourth query, 100
    lines are printed per channel, both buffers are released, the session is
    closed and the exit code is 0. *)
Example run_hundred_samples :
  let res := main (stub_driver hundred_samples) "start" in
  exit_code res = Some 0
  ∧ length (omap ready_reply (events res)) = 4%nat
  ∧ omap sleep_of (events res) = [1; 1; 1; 1]
  ∧ omap sample_index (events res) = seqZ 0 100 ++ seqZ 0 100
  ∧ omap heap_event (events res)
    = [NewArray 0%N 100; NewArray 1%N 100; DeleteArray 0%N; DeleteArray 1%N]
  ∧ last (calls_of (events res)).*1 = Some (CloseUnit 1)
  ∧ heap (final res) = ∅.
Proof. vm_compute. done. Qed.

(** A token that does not start with ['s'] ends the run at the gate. *)
Example run_declined :
  let res := main (stub_driver hundred_samples) "no" in
  exit_code res = Some (-1)
  ∧ drop 10 (events res)
    = [Cin "no"; Cout "Exiting ..."; GetStatusCode PICO_OK].
Proof. vm_compute. done. Qed.

(** Power-supply-not-connected at open: one power-source change, then
    channels C and D are switched off after A and B are configured. *)
Example run_usb_powered :
  let res :=
    main (stub_driver
            (Stub (fails_at is_OpenUnit_call PICO_POWER_SUPPLY_NOT_CONNECTED)
                  0 0 [] [])) "s" in
  exit_code res = Some 0
  ∧ take 5 (calls_of (events res)).*1
    = [OpenUnit PS5000A_DR_15BIT;
       ChangePowerSource 1 PICO_POWER_SUPPLY_NOT_CONNECTED;
       SetChannel 1 PS5000A_CHANNEL_A 1 PS5000A_DC PS5000A_1V 0;
       SetChannel 1 PS5000A_CHANNEL_B 1 PS5000A_DC PS5000A_1V 0;
       SetChannel 1 PS5000A_CHANNEL_C 0 PS5000A_DC PS5000A_1V 0].
Proof. vm_compute. done. Qed.

(** * Further properties of [main]

    ** Bounds of the polling loop *)

Lemma before_loop_stop e : before_loop e → stop_reply e = None.
Proof. revert e. by_event. Qed.
Lemma after_loop_stop e : after_loop e → stop_reply e = None.
Proof. revert e. by_event. Qed.

(** The queries, sleeps and stop calls of a run are those of its polling
    loop. *)
Lemma main_polling_view drv stdin :
  let tr := events (main drv stdin) in
  (omap ready_reply tr = [] ∧ omap sleep_of tr = [] ∧ omap stop_reply tr = [])
  ∨ ∃ handle l o,
      polling handle 0 l o
      ∧ omap ready_reply tr = omap ready_reply l
      ∧ omap sleep_of tr = omap sleep_of l
      ∧ omap stop_reply tr = omap stop_reply l
      ∧ (o = Return (-1) → exit_code (main drv stdin) = Some (-1)).
Proof.
  intros tr. subst tr.
  destruct (main_polling_shape drv stdin)
    as [Hpre|(pre & h & r_run & l & o & post & -> & Hrun & Hpre & Hpoll & Hend)].
  - left.
    by rewrite (omap_quiet ready_reply before_loop _ before_loop_ready Hpre),
      (omap_quiet sleep_of before_loop _ before_loop_sleep Hpre),
      (omap_quiet stop_reply before_loop _ before_loop_stop Hpre).
  - right. exists h, l, o. split; [done|].
    assert (omap ready_reply post = [] ∧ omap sleep_of post = []
            ∧ omap stop_reply post = []) as (Hq & Hs & Hp).
    { destruct Hend as [(-> & -> & _)|(t' & post' & -> & -> & Hpost)]; [done|].
      cbn [omap list_omap ready_reply sleep_of stop_reply].
      by rewrite (omap_quiet ready_reply after_loop _ after_loop_ready Hpost),
        (omap_quiet sleep_of after_loop _ after_loop_sleep Hpost),
        (omap_quiet stop_reply after_loop _ after_loop_stop Hpost). }
    rewrite !omap_app. cbn [omap list_omap ready_reply sleep_of stop_reply].
    rewrite !omap_app, Hq, Hs, Hp, !app_nil_r.
    rewrite (omap_quiet ready_reply before_loop _ before_loop_ready Hpre),
      (omap_quiet sleep_of before_loop _ before_loop_sleep Hpre),
      (omap_quiet stop_reply before_loop _ before_loop_stop Hpre).
    split_and!; [done..|].
    intros ->. by destruct Hend as [(_ & _ & ?)|(? & ? & [=] & _)].
Qed.

Lemma polling_bounds handle t evs o :
  polling handle t evs o → t ≤ TIMEOUT_STOP + 1 →
  Z.of_nat (length (omap ready_reply evs)) + t ≤ TIMEOUT_STOP + 2
  ∧ Z.of_nat (length (omap sleep_of evs)) + t ≤ TIMEOUT_STOP + 1.
Proof.
  induction 1 as [t r Hok Ht Hr|t r evs o Hok Ht Hr _ IH|t r Hst|t r rs rc Hok Ht];
    cbn [omap list_omap ready_reply sleep_of length]; intros Hle; lia.
Qed.

(** X1: in every run the polling loop makes at most [TIMEOUT_STOP + 2] readiness
    queries and sleeps at most [TIMEOUT_STOP + 1] times. *)
Theorem polling_is_bounded drv stdin :
  Z.of_nat (length (omap ready_reply (events (main drv stdin)))) ≤ TIMEOUT_STOP + 2
  ∧ Z.of_nat (length (omap sleep_of (events (main drv stdin)))) ≤ TIMEOUT_STOP + 1.
Proof.
  destruct (main_polling_view drv stdin)
    as [(-> & -> & _)|(h & l & o & Hpoll & -> & -> & _)]; [done|].
  destruct (polling_bounds _ _ _ _ Hpoll); [done|]. lia.
Qed.

Lemma polling_stop handle t evs o :
  polling handle t evs o → t ≤ TIMEOUT_STOP + 1 →
  omap stop_reply evs ≠ [] →
  o = Return (-1)
  ∧ Z.of_nat (length (omap ready_reply evs)) + t = TIMEOUT_STOP + 2
  ∧ Z.of_nat (length (omap sleep_of evs)) + t = TIMEOUT_STOP + 1
  ∧ Forall (λ q, status q = PICO_OK) (omap ready_reply evs)
  ∧ length (omap stop_reply evs) = 1%nat.
Proof.
  induction 1 as [t r Hok Ht Hr|t r evs o Hok Ht Hr _ IH|t r Hst|t r rs rc Hok Ht];
    cbn [omap list_omap ready_reply sleep_of stop_reply length];
    intros Hle Hstop; try done.
  - destruct IH as (-> & Hq & Hs & Hall & Hone); [lia|done|].
    split_and!; [done|lia|lia|by constructor|done].
  - split_and!; [done|lia|lia|by repeat constructor|done].
Qed.

(** X2: stop is called only on the timeout path: a run that calls stop has made
    exactly [TIMEOUT_STOP + 2] readiness queries, all answered [PICO_OK],
    has slept [TIMEOUT_STOP + 1] times, calls stop once and returns -1. *)
Theorem stop_only_after_timeout drv stdin handle r :
  Drv (Stop handle) r ∈ events (main drv stdin) →
  Z.of_nat (length (omap ready_reply (events (main drv stdin)))) = TIMEOUT_STOP + 2
  ∧ Z.of_nat (length (omap sleep_of (events (main drv stdin)))) = TIMEOUT_STOP + 1
  ∧ Forall (λ q, status q = PICO_OK) (omap ready_reply (events (main drv stdin)))
  ∧ omap stop_reply (events (main drv stdin)) = [r]
  ∧ exit_code (main drv stdin) = Some (-1).
Proof.
  intros Hin.
  assert (r ∈ omap stop_reply (events (main drv stdin))) as Hr.
  { apply list_elem_of_omap. by exists (Drv (Stop handle) r). }
  destruct (main_polling_view drv stdin)
    as [(_ & _ & Hnone)|(h & l & o & Hpoll & -> & -> & Hs & Hcode)].
  { rewrite Hnone in Hr. by apply elem_of_nil in Hr. }
  rewrite Hs in Hr |- *.
  destruct (polling_stop _ _ _ _ Hpoll) as (-> & Hq & Hn & Hall & Hone); [done| |].
  { intros Heq. rewrite Heq in Hr. by apply elem_of_nil in Hr. }
  split_and!; [lia|lia|done| |by apply Hcode].
  destruct (omap stop_reply l) as [|r' [|]]; try done.
  by apply list_elem_of_singleton in Hr as ->.
Qed.

Lemma stop_only_after_timeout_witness :
  let drv := stub_driver (never_ready all_ok) in
  let r := Reply PICO_OK 0 0 0 [] in
  Drv (Stop 1) r ∈ events (main drv "s")
  ∧ Z.of_nat (length (omap ready_reply (events (main drv "s")))) = TIMEOUT_STOP + 2
  ∧ Z.of_nat (length (omap sleep_of (events (main drv "s")))) = TIMEOUT_STOP + 1
  ∧ Forall (λ q, status q = PICO_OK) (omap ready_reply (events (main drv "s")))
  ∧ omap stop_reply (events (main drv "s")) = [r]
  ∧ exit_code (main drv "s") = Some (-1).
Proof.
  intros drv r.
  assert (Drv (Stop 1) r ∈ events (main drv "s")) as Hin.
  { apply (list_elem_of_lookup_2 _ 4016%nat). vm_compute. reflexivity. }
  split; [exact Hin|].
  exact (stop_only_after_timeout drv "s" 1 r Hin).
Defined.

(** ** The order of the driver calls, the handle, the channels and the error
    reports *)

Lemma polling_in_sequence handle t l o :
  polling handle t l o →
  ∀ prev, prev = 12%nat ∨ prev = 13%nat →
  match o with
  | Next _ => ∀ tail, in_sequence 13 tail → in_sequence prev (l ++ tail)
  | _ => in_sequence prev l
  end.
Proof.
  induction 1 as [t r Hok Ht Hr|t r evs o Hok Ht Hr _ IH|t r Hst|t r rs rc Hok Ht];
    intros prev [-> | ->]; cbn.
  all: try by split_and?.
  - specialize (IH 13%nat ltac:(by right)). destruct o; intros; (split; [done|auto]).
  - specialize (IH 13%nat ltac:(by right)). destruct o; intros; (split; [done|auto]).
Qed.

Lemma loop_event_after_B st h handle e :
  loop_event handle e → ∀ rest, after_channel_B st h e rest.
Proof. revert e. by_event. Qed.

Lemma sample_event_after_B st h e :
  sample_event e → ∀ rest, after_channel_B st h e rest.
Proof. revert e. by_event. Qed.

Lemma polling_head handle t l o :
  polling handle t l o → ∃ q l', l = Drv (IsReady handle) q :: l'.
Proof. destruct 1; by eexists _, _. Qed.

Ltac report_rules :=
  cbn [app each_with_rest]; unfold report_rule; cbv beta iota.

Lemma polling_reports handle t l o :
  polling handle t l o →
  match o with
  | Next _ => ∀ tail, no_report_head tail → each_with_rest report_rule tail →
              each_with_rest report_rule (l ++ tail)
  | _ => each_with_rest report_rule l
  end.
Proof.
  induction 1 as [t r Hok Ht Hr|t r evs o Hok Ht Hr Hp IH|t r Hst|t r rs rc Hok Ht].
  - intros tail Hhead Htail. report_rules.
    split_and?; [done..|by destruct tail as [|[] ?]|exact Htail].
  - destruct o as [t'| |].
    + intros tail Hhead Htail. report_rules.
      split_and?; [done..| |by apply IH]. by destruct Hp.
    + report_rules. split_and?; [done..| |done]. by destruct Hp.
    + report_rules. split_and?; [done..| |done]. by destruct Hp.
  - report_rules. split_and?; try done; [right|left]; by eexists.
  - report_rules. split_and?; try done. right. rewrite Hok. split; [done|by right].
Qed.

Lemma sample_lines_reports h p ixs tail :
  no_report_head tail → each_with_rest report_rule tail →
  each_with_rest report_rule (sample_lines h p ixs ++ tail).
Proof.
  intros Hhead Htail. induction ixs as [|i ixs IH]; [done|].
  unfold sample_lines in *. cbn [mbind list_bind app] in *. report_rules.
  split_and?; try done.
  destruct ixs; [by destruct tail as [|[] ?]|done].
Qed.

Lemma sample_lines_head (F : PICO_STATUS → Prop) h p ixs tail :
  no_report_head tail →
  match sample_lines h p ixs ++ tail with
  | GetStatusCode st :: _ => F st
  | _ => True
  end.
Proof. destruct ixs; [by destruct tail as [|[] ?]|done]. Qed.

Lemma in_sequence_samples prev h p ixs tail :
  in_sequence prev tail → in_sequence prev (sample_lines h p ixs ++ tail).
Proof.
  intros Htail. induction ixs as [|i ixs IH]; [done|].
  unfold sample_lines in *. by cbn [mbind list_bind app in_sequence] in *.
Qed.

Ltac sequence_leaf :=
  cbn [in_sequence app];
  repeat first
    [ exact I
    | apply conj; [reflexivity|]
    | by (eapply (polling_in_sequence _ _ _ (Return _)); [eassumption|auto])
    | eapply (polling_in_sequence _ _ _ (Next _)); [eassumption|by auto|];
      cbn [in_sequence app]
    | apply in_sequence_samples; cbn [in_sequence app] ].

Ltac after_B_leaf :=
  cbn [each_with_rest after_channel_B app];
  repeat first
    [ exact I
    | apply conj
    | apply each_with_rest_app;
        [ eapply Forall_impl; [by eapply polling_loop_events|];
          apply loop_event_after_B |]
    | apply each_with_rest_app;
        [ eapply Forall_impl; [by apply sample_lines_events|];
          apply sample_event_after_B |]
    | apply each_with_rest_Forall;
        eapply Forall_impl; [by eapply polling_loop_events|];
        apply loop_event_after_B
    | by intros ?
    | intros _; split; intros ?;
        first [ done
              | absurd_status
              | by eexists _, _
              | eexists _, _; split; [reflexivity|];
                intros ?; first [done | by eexists _, _] ] ].

Ltac reports_leaf :=
  report_rules;
  repeat first
    [ exact I
    | apply conj
    | by (eapply (polling_reports _ _ _ (Return _)); eassumption)
    | eapply (polling_reports _ _ _ (Next _)); [eassumption|exact I|];
      report_rules
    | apply sample_lines_reports; [exact I|]; report_rules
    | by left
    | by apply sample_lines_head
    | match goal with
      | Hp : polling _ _ ?l _ |- _ =>
          destruct (polling_head _ _ _ _ Hp) as (? & ? & ->); exact I
      end
    | by (right; eexists)
    | by (left; eexists)
    | by (right; split; [|left])
    | by (right; split; [|right]) ].

Ltac workflow_leaf :=
  unfold workflow_rules; cbn [prepend return_ events final out exit_code app];
  eexists _, _; split; [reflexivity|];
  split; [solve [sequence_leaf]|];
  split; [solve [forall_events]|];
  split; [solve [forall_events]|];
  split; [solve [after_B_leaf] | solve [reports_leaf]].

Lemma main_workflow_rules drv stdin : workflow_rules (main drv stdin).
Proof. run_main drv Hpoll; workflow_leaf. Qed.

Lemma follows_spec prev c :
  follows prev c = true ↔ (prev < stage c)%nat ∨ (prev = 13 ∧ stage c = 13)%nat.
Proof.
  unfold follows.
  rewrite orb_true_iff, andb_true_iff, Nat.ltb_lt, !Nat.eqb_eq. done.
Qed.

Lemma in_sequence_split prev pre c r rest :
  in_sequence prev (pre ++ Drv c r :: rest) →
  ((prev < stage c)%nat ∨ (prev = 13 ∧ stage c = 13)%nat)
  ∧ in_sequence (stage c) rest.
Proof.
  revert prev. induction pre as [|e pre IH]; intros prev; cbn [app in_sequence].
  - by rewrite follows_spec.
  - destruct e as [c0 r0| | | | | | | | | |]; try apply IH.
    rewrite follows_spec. intros [Hc0 [Hc Hrest]%IH]. split; [lia|done].
Qed.

(** X3: the driver calls of a run are made in the order of the workflow: of two
    calls of a run, the later one has a later stage, unless both are
    readiness queries.  In particular every other call is made at most
    once. *)
Theorem calls_in_workflow_order drv stdin pre c r mid c' r' post :
  events (main drv stdin) = pre ++ Drv c r :: mid ++ Drv c' r' :: post →
  (stage c < stage c')%nat
  ∨ ∃ handle handle', c = IsReady handle ∧ c' = IsReady handle'.
Proof.
  intros Hsplit.
  destruct (main_workflow_rules drv stdin) as (r_open & rest & Hev & Hseq & _).
  assert (in_sequence 0 (events (main drv stdin))) as H0.
  { rewrite Hev. by cbn. }
  rewrite Hsplit in H0.
  apply in_sequence_split in H0 as [_ H1].
  apply in_sequence_split in H1 as [[Hlt|[Hc Hc']] _]; [by left|right].
  destruct c as [?|??|? ch ????|? ch ????|????|???????|?|?????|?|?|?|??????];
    try destruct ch; try done.
  destruct c' as [?|??|? ch ????|? ch ????|????|???????|?|?????|?|?|?|??????];
    try destruct ch; try done.
  by eexists _, _.
Qed.

Lemma calls_in_workflow_order_witness :
  let drv := stub_driver three_samples in
  let tr := events (main drv "start") in
  let r := Reply PICO_OK 0 0 0 [] in
  tr = take 9 tr ++ Drv (SetSigGenBuiltInV2 1) r
       :: take 2 (drop 10 tr)
       ++ Drv (RunBlock 1 10 89 TIMEBASE 0) r :: drop 13 tr
  ∧ ((stage (SetSigGenBuiltInV2 1) < stage (RunBlock 1 10 89 TIMEBASE 0))%nat
     ∨ ∃ handle handle',
         SetSigGenBuiltInV2 1 = IsReady handle
         ∧ RunBlock 1 10 89 TIMEBASE 0 = IsReady handle').
Proof.
  intros drv tr r.
  assert (tr = take 9 tr ++ Drv (SetSigGenBuiltInV2 1) r
               :: take 2 (drop 10 tr)
               ++ Drv (RunBlock 1 10 89 TIMEBASE 0) r :: drop 13 tr) as Hsplit
    by (vm_compute; reflexivity).
  split; [exact Hsplit|].
  exact (calls_in_workflow_order drv "start" _ _ _ _ _ _ _ Hsplit).
Defined.

(** X4: every driver call after open is made on the handle that open stored. *)
Theorem calls_use_the_opened_handle drv stdin :
  ∃ r_open rest,
    events (main drv stdin) = Drv (OpenUnit PS5000A_DR_15BIT) r_open :: rest
    ∧ Forall (on_call (uses_handle (out_handle r_open))) rest.
Proof.
  destruct (main_workflow_rules drv stdin) as (r_open & rest & Hev & _ & Hh & _).
  by exists r_open, rest.
Qed.

(** X5: channels A and B are always switched on.  Channels C and D are touched
    only when open reported power-supply-not-connected, and then switched
    off: in that case the call that follows the successful configuration of
    channel B switches off C, and D follows C; otherwise the allocation of
    the first buffer follows channel B. *)
Theorem channels_c_d_off_on_usb_power drv stdin :
  ∃ r_open rest,
    events (main drv stdin) = Drv (OpenUnit PS5000A_DR_15BIT) r_open :: rest
    ∧ Forall (on_call (channel_rule (status r_open))) rest
    ∧ ∀ pre e tail,
        rest = pre ++ e :: tail →
        after_channel_B (status r_open) (out_handle r_open) e tail.
Proof.
  destruct (main_workflow_rules drv stdin)
    as (r_open & rest & Hev & _ & _ & Hc & HB & _).
  exists r_open, rest. split_and!; [done..|].
  by apply each_with_rest_split.
Qed.

(** X6: every numeric error line is followed at once by the decoded description
    of the same status, except the line for channel A, which is the last
    event of its run; and a decoded description is printed only right after
    the numeric line of the same status or, with [PICO_OK], right after
    "Exiting ..." or "TIMEOUT ". *)
Theorem error_reports_are_paired drv stdin pre e rest :
  events (main drv stdin) = pre ++ e :: rest →
  report_rule e rest.
Proof.
  intros Hsplit.
  destruct (main_workflow_rules drv stdin) as (_ & _ & _ & _ & _ & _ & _ & Hr).
  rewrite each_with_rest_split in Hr. by eapply Hr.
Qed.

Lemma error_reports_are_paired_witness :
  let drv := stub_driver (Stub (fails_at is_SetChannel 1) 0 0 [] []) in
  events (main drv "s")
  = [Drv (OpenUnit PS5000A_DR_15BIT) (Reply PICO_OK 1 0 0 []);
     Drv (SetChannel 1 PS5000A_CHANNEL_A 1 PS5000A_DC PS5000A_1V 0) r_fail]
    ++ CoutError "Set Channel A" 1 :: []
  ∧ report_rule (CoutError "Set Channel A" 1) [].
Proof.
  intros drv.
  assert (events (main drv "s")
          = [Drv (OpenUnit PS5000A_DR_15BIT) (Reply PICO_OK 1 0 0 []);
             Drv (SetChannel 1 PS5000A_CHANNEL_A 1 PS5000A_DC PS5000A_1V 0) r_fail]
            ++ CoutError "Set Channel A" 1 :: []) as Hsplit
    by (vm_compute; reflexivity).
  split; [exact Hsplit|].
  exact (error_reports_are_paired drv "s" _ _ _ Hsplit).
Defined.

(** X7: when open fails with a status other than power-supply-not-connected, the
    failure is reported twice, as "Open Unit" and as "Change Power Source",
    no other driver call is made and the exit code is -1. *)
Theorem open_failure_is_reported_twice drv stdin :
  let r_open := drv [] (OpenUnit PS5000A_DR_15BIT) in
  status r_open ≠ PICO_OK →
  status r_open ≠ PICO_POWER_SUPPLY_NOT_CONNECTED →
  events (main drv stdin)
  = [Drv (OpenUnit PS5000A_DR_15BIT) r_open;
     CoutError "Open Unit" (status r_open); GetStatusCode (status r_open);
     CoutError "Change Power Source" (status r_open);
     GetStatusCode (status r_open)]
  ∧ exit_code (main drv stdin) = Some (-1).
Proof.
  intros r_open Hok Hpower. subst r_open.
  unfold exit_code, main, main_body, init. run.
  destruct (decide (PICO_OK ≠ _)) as [_|Hst]; [|by apply status_ok in Hst]. run.
  destruct (decide (PICO_POWER_SUPPLY_NOT_CONNECTED = _)) as [Heq|_]; [done|]. run.
  destruct (decide (PICO_OK ≠ _)) as [_|Hst]; [|by apply status_ok in Hst]. run.
  done.
Qed.

Lemma open_failure_is_reported_twice_witness :
  let drv := stub_driver (Stub (fails_at is_OpenUnit_call 3) 0 0 [] []) in
  let r_open := drv [] (OpenUnit PS5000A_DR_15BIT) in
  status r_open ≠ PICO_OK
  ∧ status r_open ≠ PICO_POWER_SUPPLY_NOT_CONNECTED
  ∧ events (main drv "s")
    = [Drv (OpenUnit PS5000A_DR_15BIT) r_open;
       CoutError "Open Unit" (status r_open); GetStatusCode (status r_open);
       CoutError "Change Power Source" (status r_open);
       GetStatusCode (status r_open)]
  ∧ exit_code (main drv "s") = Some (-1).
Proof.
  intros drv r_open.
  assert (status r_open ≠ PICO_OK) as Hok by (vm_compute; discriminate).
  assert (status r_open ≠ PICO_POWER_SUPPLY_NOT_CONNECTED) as Hpower
    by (vm_compute; discriminate).
  split; [exact Hok|]. split; [exact Hpower|].
  exact (open_failure_is_reported_twice drv "s" Hok Hpower).
Defined.

(** ** The sample buffers on the heap *)

Lemma shape_store_samples h wr : shape (store_samples h wr) = shape h.
Proof.
  unfold shape, store_samples. destruct (h !! wr.1) as [cells|] eqn:Hp; [|done].
  rewrite fmap_insert. apply insert_id. rewrite lookup_fmap, Hp. cbn. f_equal.
  rewrite length_take, length_app, length_fmap, length_drop. lia.
Qed.

Lemma shape_foldl h wrs : shape (foldl store_samples h wrs) = shape h.
Proof.
  revert h. induction wrs as [|wr wrs IH]; intros h; [done|].
  cbn. by rewrite IH, shape_store_samples.
Qed.

Lemma shape_insert h p cells :
  shape (<[p := cells]> h) = <[p := length cells]> (shape h).
Proof. apply fmap_insert. Qed.

Lemma shape_delete h p : shape (delete p h) = delete p (shape h).
Proof. apply fmap_delete. Qed.

Lemma shape_empty_inv h : shape h = ∅ → h = ∅.
Proof. apply fmap_empty_inv. Qed.

Lemma keeps_shape_bind {A B} (m : M A) (k : A → M B) :
  keeps_shape m → (∀ a, keeps_shape (k a)) → keeps_shape (m ≫= k).
Proof.
  intros Hm Hk w. rewrite run_bind.
  destruct (out (m w)) as [a| |]; cbn [final]; [|done..].
  by rewrite Hk.
Qed.

Lemma keeps_shape_ret {A} (a : A) : keeps_shape (mret a).
Proof. done. Qed.
Lemma keeps_shape_return {A} code : keeps_shape (@return_ A code).
Proof. done. Qed.
Lemma keeps_shape_emit e : keeps_shape (emit e).
Proof. done. Qed.
Lemma keeps_shape_invoke drv c : keeps_shape (invoke drv c).
Proof. intros w. cbn. apply shape_foldl. Qed.

Lemma keeps_shape_if {A} (P : Prop) `{Decision P} (m1 m2 : M A) :
  keeps_shape m1 → keeps_shape m2 → keeps_shape (if decide P then m1 else m2).
Proof. by destruct (decide P). Qed.

Ltac keeps_shape :=
  unfold_stmts;
  repeat first
    [ apply keeps_shape_ret | apply keeps_shape_return | apply keeps_shape_emit
    | apply keeps_shape_invoke | apply keeps_shape_if
    | apply keeps_shape_bind; [|intros ?] ].

(** The polling loop allocates and releases nothing. *)
Lemma wait_ready_shape drv fuel handle isReady st t :
  keeps_shape (wait_ready drv fuel handle isReady st t).
Proof.
  revert isReady st t. induction fuel as [|fuel IH]; intros isReady st t; [done|].
  cbn [wait_ready]. apply keeps_shape_if; [|apply keeps_shape_ret].
  apply keeps_shape_bind; [keeps_shape|]. intros [st' isReady'].
  keeps_shape. apply IH.
Qed.

Ltac run_polling_heap Hpoll Hshape :=
  match goal with
  | Hok : ?s = PICO_OK |- context [(wait_ready ?d ?f ?h 0 ?s 0 ≫= ?k) ?w] =>
      rewrite Hok;
      let Ho := fresh "Ho" in
      let t' := fresh "time_acq" in
      pose proof (wait_ready_polling d f h 0 w ltac:(done) ltac:(done)) as Hpoll;
      pose proof (wait_ready_shape d f h 0 PICO_OK 0 w) as Hshape;
      destruct (polling_out _ _ _ _ Hpoll) as [[t' Ho]|Ho];
      [ rewrite (bind_run_events _ _ _ _ Ho)
      | rewrite (bind_run_return _ _ _ _ Ho) ];
      rewrite Ho in Hpoll;
      generalize dependent (events (wait_ready d f h 0 PICO_OK 0 w));
      intros ? Hpoll;
      generalize dependent (final (wait_ready d f h 0 PICO_OK 0 w));
      intros ? Hshape;
      cbn [heap] in Hshape;
      rewrite ?shape_foldl, ?shape_insert, ?length_replicate in Hshape;
      clear Ho; run
  end.

(** [run_main], keeping the arrays of the heap across the polling loop. *)
Ltac run_main_heap drv Hpoll Hshape :=
  unfold main, main_body, init; run; forget_replies drv;
  repeat first
    [ run_polling_heap Hpoll Hshape; forget_replies drv
    | rewrite !bind_for_upto; run; forget_replies drv
    | case_test; forget_replies drv ].

Lemma loop_event_buffer_use handle bufferA bufferB e :
  loop_event handle e → buffer_use bufferA bufferB e.
Proof. destruct e as [[] ?| | | | | | | | | |]; cbn; by intros. Qed.

Lemma loop_event_buffers_after handle e :
  loop_event handle e → ∀ rest, buffers_after e rest.
Proof. revert e. by_event. Qed.

Lemma sample_event_buffers_after e :
  sample_event e → ∀ rest, buffers_after e rest.
Proof. revert e. by_event. Qed.

Lemma loop_event_listing_of handle bufferA bufferB e :
  loop_event handle e → ∀ rest, listing_of bufferA bufferB e rest.
Proof. revert e. by_event. Qed.

Lemma sample_event_listing_of bufferA bufferB e :
  sample_event e → ∀ rest, listing_of bufferA bufferB e rest.
Proof. revert e. by_event. Qed.

Lemma sample_lines_buffer_use bufferA bufferB h p ixs :
  p = bufferA ∨ p = bufferB →
  Forall (buffer_use bufferA bufferB) (sample_lines h p ixs).
Proof.
  intros Hp. apply Forall_bind, Forall_forall. intros i _.
  apply Forall_cons_2; [exact Hp|]. by apply Forall_cons_2.
Qed.

Ltac buffer_use_events :=
  repeat first
    [ apply Forall_nil_2
    | apply Forall_cons_2; [cbn; first [done | by left | by right]|]
    | apply Forall_app_2
    | by (eapply Forall_impl; [by eapply polling_loop_events|];
          intros ?; apply loop_event_buffer_use)
    | by (apply sample_lines_buffer_use; auto) ].

Ltac each_leaf lemma_loop lemma_sample :=
  repeat first
    [ exact I
    | apply conj
    | apply each_with_rest_app;
        [ eapply Forall_impl; [by eapply polling_loop_events|];
          apply lemma_loop |]
    | apply each_with_rest_app;
        [ eapply Forall_impl; [by apply sample_lines_events|];
          apply lemma_sample |]
    | apply each_with_rest_Forall;
        eapply Forall_impl; [by eapply polling_loop_events|];
        apply lemma_loop ].

Lemma two_arrays_lookup (s : gmap N nat) (n : nat) :
  (<[N.succ 0 := n]> (<[0%N := n]> s) : gmap N nat) !! 0%N = Some n
  ∧ (<[N.succ 0 := n]> (<[0%N := n]> s) : gmap N nat) !! N.succ 0 = Some n.
Proof. split; by simplify_map_eq. Qed.

Ltac listing_of_leaf :=
  cbn [listing_of]; intros _;
  match goal with
  | Hshape : shape (heap ?w) = _ |- _ =>
      exists (heap w); eexists _, _; rewrite Hshape;
      split; [apply two_arrays_lookup|];
      split; [apply two_arrays_lookup|];
      split; [reflexivity|]; solve [forall_events]
  end.

Ltac buffers_leaf :=
  unfold buffer_rules;
  cbn [prepend return_ events final out heap app each_with_rest buffers_after];
  each_leaf loop_event_buffers_after sample_event_buffers_after;
  try done;
  try solve [buffer_use_events];
  cbn [each_with_rest listing_of];
  each_leaf loop_event_listing_of sample_event_listing_of;
  try (by intros ?);
  listing_of_leaf.

Lemma main_buffer_rules drv stdin : buffer_rules (main drv stdin).
Proof. run_main_heap drv Hpoll Hshape; buffers_leaf. Qed.

Lemma shape_empty : shape ∅ = ∅.
Proof. apply fmap_empty. Qed.

Lemma two_arrays_released (pA pB : N) (n m : nat) :
  delete pB (delete pA (<[pB := m]> (<[pA := n]> (∅ : gmap N nat)))) = ∅.
Proof.
  apply map_eq. intros i. rewrite lookup_empty.
  destruct (decide (i = pB)) as [->|]; [by simplify_map_eq|].
  destruct (decide (i = pA)) as [->|]; by simplify_map_eq.
Qed.

Lemma omap_heap_loop handle t l o :
  polling handle t l o → omap heap_event l = [].
Proof.
  intros Hpoll. apply (omap_quiet heap_event (loop_event handle)).
  - by_event.
  - by eapply polling_loop_events.
Qed.

Lemma omap_heap_samples h p ixs : omap heap_event (sample_lines h p ixs) = [].
Proof.
  apply (omap_quiet heap_event sample_event); [by_event|].
  apply sample_lines_events.
Qed.

Ltac shape_norm :=
  rewrite ?shape_foldl, ?shape_delete, ?shape_foldl, ?shape_insert,
    ?shape_foldl, ?length_replicate;
  try match goal with
  | Hshape : shape (heap ?w) = _ |- _ => rewrite Hshape
  end;
  rewrite ?shape_foldl, ?shape_empty.

Ltac heap_events :=
  cbn [omap list_omap heap_event];
  repeat (rewrite omap_app; cbn [omap list_omap heap_event]);
  rewrite ?omap_heap_samples;
  repeat match goal with
  | Hp : polling _ _ ?l _ |- _ => rewrite (omap_heap_loop _ _ _ _ Hp)
  end;
  cbn [app]; reflexivity.

Ltac heap_leaf :=
  unfold heap_outcome;
  cbn [prepend return_ events final out exit_code heap app];
  first
    [ left; split; [heap_events|]; split; [|reflexivity];
      apply shape_empty_inv; shape_norm; reflexivity
    | right; left; exists 0%N, (N.succ 0);
      split; [done|]; split; [heap_events|];
      split; [shape_norm; reflexivity|reflexivity]
    | right; right; exists 0%N, (N.succ 0);
      split; [heap_events|];
      apply shape_empty_inv; shape_norm; apply two_arrays_released ].

Lemma main_heap_outcome drv stdin : heap_outcome (main drv stdin).
Proof. run_main_heap drv Hpoll Hshape; heap_leaf. Qed.

(** ** The exit code *)

Lemma polling_next_clean handle t l t' :
  polling handle t l (Next t') → Forall clean_event l.
Proof.
  remember (Next t') as o eqn:Ho. induction 1; simplify_eq.
  - apply Forall_cons_2; [by left|]. by apply Forall_cons_2.
  - apply Forall_cons_2; [by left|]. apply Forall_cons_2; [done|]. auto.
Qed.

Lemma polling_return_unclean handle t l code :
  polling handle t l (Return code) → ¬ Forall clean_event l.
Proof.
  remember (Return code) as o eqn:Ho.
  induction 1 as [|t r evs o Hok Ht Hr Hp IH|t r Hst|]; simplify_eq; intros Hall.
  - apply Forall_cons_1 in Hall as [_ Hall].
    apply Forall_cons_1 in Hall as [_ Hall]. by apply IH.
  - apply Forall_cons_1 in Hall as [[?|[[] _]] _]. done.
  - apply Forall_cons_1 in Hall as [_ Hall].
    by apply Forall_cons_1 in Hall as [[] _].
Qed.

Lemma sample_lines_clean h p ixs : Forall clean_event (sample_lines h p ixs).
Proof.
  eapply Forall_impl; [apply sample_lines_events|]. by intros [].
Qed.

Lemma snoc_here {A} (x : A) : [x] = [] ++ [x].
Proof. done. Qed.
Lemma snoc_cons {A} (e x : A) l pre : l = pre ++ [x] → e :: l = (e :: pre) ++ [x].
Proof. by intros ->. Qed.
Lemma snoc_app {A} (x : A) l1 l2 pre :
  l2 = pre ++ [x] → l1 ++ l2 = (l1 ++ pre) ++ [x].
Proof. intros ->. by rewrite (assoc_L (++)). Qed.

Ltac clean_events :=
  repeat first
    [ apply Forall_nil_2
    | apply Forall_cons_2; [cbn; first [done | by left | by right]|]
    | apply Forall_app_2
    | by (eapply polling_next_clean; eassumption)
    | apply sample_lines_clean ].

Ltac unclean_events :=
  let Hs := fresh "Hs" in
  let Hall := fresh "Hall" in
  intros Hs Hall; exfalso;
  try done;
  repeat first
    [ apply Forall_cons_1 in Hall as [? Hall]
    | match type of Hall with
      | Forall _ (?l ++ _) =>
          first
            [ apply Forall_app in Hall as [Hall _];
              match goal with
              | Hp : polling _ _ l (Return _) |- _ =>
                  exact (polling_return_unclean _ _ _ _ Hp Hall)
              end
            | apply Forall_app in Hall as [_ Hall] ]
      end ];
  try match goal with
  | Hp : polling _ _ ?l (Return _), Hl : Forall clean_event ?l |- _ =>
      exact (polling_return_unclean _ _ _ _ Hp Hl)
  end;
  cbn [clean_event is_OpenUnit] in *;
  repeat match goal with
  | H : _ ∨ (False ∧ _) |- _ => destruct H as [H|[[] _]]
  | H : _ ∨ (True ∧ _) |- _ => destruct H as [H|[_ H]]
  end;
  congruence.

Ltac exit_leaf :=
  unfold exit_rules;
  cbn [prepend return_ events final out exit_code app];
  split;
  [ first
      [ by intros [=]
      | intros _; split; [assumption|]; split; [solve [clean_events]|];
        eexists _, _, _;
        repeat first [ apply snoc_here | apply snoc_cons | apply snoc_app ] ]
  | first [ by intros _ _ | unclean_events ] ].

Lemma main_exit_rules drv stdin : exit_rules stdin (main drv stdin).
Proof. run_main drv Hpoll; exit_leaf. Qed.

(** ** The listing and the stored samples *)

Lemma shape_lookup h p n :
  shape h !! p = Some n → ∃ cells, h !! p = Some cells ∧ length cells = n.
Proof.
  unfold shape. rewrite lookup_fmap. intros (cells & ? & ?)%fmap_Some. eauto.
Qed.


(** Reading back what the driver stored. *)
Lemma read_cell_stored h p samples n i :
  shape h !! p = Some n → 0 ≤ i →
  (Z.to_nat i < n)%nat → (Z.to_nat i < length samples)%nat →
  read_cell (store_samples h (p, samples)) p i = samples !! Z.to_nat i.
Proof.
  intros (cells & Hp & <-)%shape_lookup Hi Hn Hs.
  unfold read_cell, store_samples. cbn [fst snd].
  unfold ptr in *. rewrite decide_True by done. rewrite Hp, lookup_insert_eq.
  rewrite lookup_take_lt by done.
  rewrite lookup_app_l by (by rewrite length_fmap).
  rewrite list_lookup_fmap. by destruct (samples !! Z.to_nat i).
Qed.

Lemma read_cell_other h p q samples i :
  p ≠ q → read_cell (store_samples h (q, samples)) p i = read_cell h p i.
Proof.
  intros Hpq. unfold read_cell, store_samples. cbn [fst snd].
  unfold ptr in *. destruct (h !! q); [|done]. by rewrite lookup_insert_ne.
Qed.

Lemma sample_lines_rows h p ixs :
  omap sample_line (sample_lines h p ixs)
  = (λ i, (i, read_cell h p i,
           (λ v, adc_to_mv v PS5000A_2V MAX_ADC) <$> read_cell h p i)) <$> ixs.
Proof.
  induction ixs as [|i ixs IH]; [done|].
  unfold sample_lines in *. cbn. by rewrite IH.
Qed.

Lemma rows_of_samples h p samples n :
  (∀ i, 0 ≤ i < n → read_cell h p i = samples !! Z.to_nat i) →
  n ≤ Z.of_nat (length samples) →
  (λ i, (i, read_cell h p i,
         (λ v, adc_to_mv v PS5000A_2V MAX_ADC) <$> read_cell h p i))
    <$> seqZ 0 n
  = imap sample_row (take (Z.to_nat n) samples).
Proof.
  intros Hread Hlen. apply list_eq. intros k.
  rewrite list_lookup_fmap, list_lookup_imap.
  destruct (decide (Z.of_nat k < n)) as [Hk|Hk].
  - rewrite lookup_seqZ_lt, lookup_take_lt by lia. cbn.
    rewrite Hread by lia. rewrite Z.add_0_l, Nat2Z.id.
    destruct (lookup_lt_is_Some_2 samples k) as [raw ->]; [lia|]. done.
  - rewrite lookup_seqZ_ge, lookup_take_ge by lia. done.
Qed.


(** The sample lines of a listing. *)
Lemma listing_rows (h : gmap N (list (option Z))) bufferA bufferB ixs tail :
  Forall (λ e, sample_line e = None) tail →
  omap sample_line
    (Cout "Print Buffer A : " :: sample_lines h bufferA ixs
     ++ Cout "" :: Cout "Print Buffer B : " :: sample_lines h bufferB ixs
     ++ tail)
  = omap sample_line (sample_lines h bufferA ixs)
    ++ omap sample_line (sample_lines h bufferB ixs).
Proof.
  intros Htail. cbn [omap list_omap sample_line]. rewrite omap_app.
  cbn [omap list_omap sample_line]. rewrite omap_app.
  rewrite (omap_quiet sample_line (λ e, sample_line e = None) tail);
    [by rewrite app_nil_r|done|done].
Qed.

Lemma listing_tail_quiet bufferA bufferB handle r_close report :
  Forall report_event report →
  Forall (λ e, sample_line e = None)
    (DeleteArray bufferA :: DeleteArray bufferB
     :: Drv (CloseUnit handle) r_close :: report).
Proof.
  intros Hreport. repeat (apply Forall_cons_2; [done|]).
  eapply Forall_impl; [exact Hreport|]. by intros [].
Qed.

(** What follows a successful retrieval, with the buffers of the run. *)
Lemma main_listing_of drv stdin pre bufferA lenA bufferB lenB mid
    handle startIndex noOfSamples ratio mode segment r post :
  events (main drv stdin)
  = pre ++ NewArray bufferA lenA :: NewArray bufferB lenB
        :: mid
        ++ Drv (GetValues handle startIndex noOfSamples ratio mode segment) r
        :: post →
  status r = PICO_OK →
  bufferA ≠ bufferB ∧ lenA = NO_OF_SAMPLES ∧ lenB = NO_OF_SAMPLES
  ∧ ∃ h tail,
      shape h !! bufferA = Some (Z.to_nat NO_OF_SAMPLES)
      ∧ shape h !! bufferB = Some (Z.to_nat NO_OF_SAMPLES)
      ∧ Forall (λ e, sample_line e = None) tail
      ∧ post
        = Cout "Print Buffer A : "
          :: sample_lines (foldl store_samples h (out_writes r)) bufferA
               (seqZ 0 (out_noSamples r))
          ++ Cout "" :: Cout "Print Buffer B : "
          :: sample_lines (foldl store_samples h (out_writes r)) bufferB
               (seqZ 0 (out_noSamples r))
          ++ tail.
Proof.
  intros Hsplit Hok.
  pose proof (main_buffer_rules drv stdin) as H. unfold buffer_rules in H.
  rewrite each_with_rest_split in H.
  specialize (H _ _ _ Hsplit). cbn [buffers_after] in H.
  destruct H as (Hne & -> & -> & _ & Hlist).
  rewrite each_with_rest_split in Hlist.
  specialize (Hlist _ _ _ eq_refl Hok).
  destruct Hlist as (h & r_close & report & HpA & HpB & -> & Hreport).
  split_and!; [done..|].
  eexists h, _. split_and!; [done|done| |reflexivity].
  by apply listing_tail_quiet.
Qed.

(** X9: the listing shows what the driver stored.  When retrieval succeeds,
    stores [samplesA] through the first buffer and [samplesB] through the
    second, and reports a count that exceeds neither [NO_OF_SAMPLES] nor the
    number of samples stored, the sample lines printed afterwards are the
    first [out_noSamples r] samples of [samplesA] followed by those of
    [samplesB], each with its index, its raw value and the conversion of
    that value. *)
Theorem listing_shows_stored_samples
    drv stdin pre bufferA lenA bufferB lenB mid
    handle startIndex noOfSamples ratio mode segment r post
    samplesA samplesB :
  events (main drv stdin)
  = pre ++ NewArray bufferA lenA :: NewArray bufferB lenB
        :: mid
        ++ Drv (GetValues handle startIndex noOfSamples ratio mode segment) r
        :: post →
  status r = PICO_OK →
  out_writes r = [(bufferA, samplesA); (bufferB, samplesB)] →
  out_noSamples r ≤ NO_OF_SAMPLES →
  out_noSamples r ≤ Z.of_nat (length samplesA) →
  out_noSamples r ≤ Z.of_nat (length samplesB) →
  omap sample_line post
  = imap sample_row (take (Z.to_nat (out_noSamples r)) samplesA)
    ++ imap sample_row (take (Z.to_nat (out_noSamples r)) samplesB).
Proof.
  intros Hsplit Hok Hwr Hn HA HB.
  destruct (main_listing_of _ _ _ _ _ _ _ _ _ _ _ _ _ _ _ _ Hsplit Hok)
    as (Hne & _ & _ & h & tail & HpA & HpB & Htail & ->).
  rewrite listing_rows by done. rewrite !sample_lines_rows.
  rewrite Hwr. cbn [foldl].
  unfold NO_OF_SAMPLES in *.
  f_equal; apply rows_of_samples; try done; intros i Hi.
  - rewrite read_cell_other by done.
    apply (read_cell_stored _ _ _ _ _ HpA); lia.
  - apply (read_cell_stored _ _ _ (Z.to_nat 100)); [|lia..].
    by rewrite shape_store_samples.
Qed.

Lemma listing_shows_stored_samples_witness :
  let drv := stub_driver three_samples in
  let tr := events (main drv "start") in
  let r := Reply PICO_OK 0 0 3
             [(0%N, [32767; -32767; 0]); (1%N, [100; 200; 300])] in
  tr = take 3 tr ++ NewArray 0%N 100 :: NewArray 1%N 100
       :: take 17 (drop 5 tr)
       ++ Drv (GetValues 1 0 NO_OF_SAMPLES 1 PS5000A_RATIO_MODE_NONE 0) r
       :: drop 23 tr
  ∧ omap sample_line (drop 23 tr)
    = imap sample_row (take (Z.to_nat (out_noSamples r)) [32767; -32767; 0])
      ++ imap sample_row (take (Z.to_nat (out_noSamples r)) [100; 200; 300]).
Proof.
  intros drv tr r.
  assert (tr = take 3 tr ++ NewArray 0%N 100 :: NewArray 1%N 100
               :: take 17 (drop 5 tr)
               ++ Drv (GetValues 1 0 NO_OF_SAMPLES 1 PS5000A_RATIO_MODE_NONE 0) r
               :: drop 23 tr) as Hsplit by (vm_compute; reflexivity).
  assert (status r = PICO_OK) as Hok by reflexivity.
  assert (out_writes r = [(0%N, [32767; -32767; 0]); (1%N, [100; 200; 300])])
    as Hwr by reflexivity.
  assert (out_noSamples r ≤ NO_OF_SAMPLES) as Hn by (vm_compute; discriminate).
  assert (out_noSamples r ≤ Z.of_nat (length [32767; -32767; 0])) as HA
    by (vm_compute; discriminate).
  assert (out_noSamples r ≤ Z.of_nat (length [100; 200; 300])) as HB
    by (vm_compute; discriminate).
  split; [exact Hsplit|].
  exact (listing_shows_stored_samples drv "start" _ _ _ _ _ _ _ _ _ _ _ _ r _
           _ _ Hsplit Hok Hwr Hn HA HB).
Defined.





(** X13: a run that returns 0 has released everything.  Its last event is the
    close of the session, answered with [PICO_OK]; both buffers were
    allocated and released, and the heap is empty. *)
Theorem successful_run_releases_everything drv stdin :
  exit_code (main drv stdin) = Some 0 →
  (∃ pre handle r,
     events (main drv stdin) = pre ++ [Drv (CloseUnit handle) r]
     ∧ status r = PICO_OK)
  ∧ (∃ bufferA bufferB,
       omap heap_event (events (main drv stdin))
       = [NewArray bufferA NO_OF_SAMPLES; NewArray bufferB NO_OF_SAMPLES;
          DeleteArray bufferA; DeleteArray bufferB])
  ∧ heap (final (main drv stdin)) = ∅.
Proof.
  intros H0.
  destruct (main_exit_rules drv stdin) as [H1 _].
  destruct (H1 H0) as (_ & Hclean & pre & handle & r & Hev).
  split.
  - exists pre, handle, r. split; [done|].
    rewrite Hev in Hclean. apply Forall_app in Hclean as [_ Hlast].
    apply Forall_cons_1 in Hlast as [[?|[[] _]] _]. done.
  - destruct (main_heap_outcome drv stdin)
      as [(_ & _ & Hx)|[(? & ? & _ & _ & _ & Hx)|(bufferA & bufferB & ? & ?)]].
    + rewrite H0 in Hx. done.
    + rewrite H0 in Hx. done.
    + split; [by exists bufferA, bufferB|done].
Qed.

Lemma successful_run_releases_everything_witness :
  let res := main (stub_driver hundred_samples) "start" in
  (∃ pre handle r,
     events res = pre ++ [Drv (CloseUnit handle) r] ∧ status r = PICO_OK)
  ∧ (∃ bufferA bufferB,
       omap heap_event (events res)
       = [NewArray bufferA NO_OF_SAMPLES; NewArray bufferB NO_OF_SAMPLES;
          DeleteArray bufferA; DeleteArray bufferB])
  ∧ heap (final res) = ∅.
Proof.
  intros res.
  assert (exit_code res = Some 0) as H0 by (vm_compute; reflexivity).
  exact (successful_run_releases_everything
           (stub_driver hundred_samples) "start" H0).
Defined.

(** * The console helpers of the Linux build *)

Lemma flush_input_trace env fuel tr tr' :
  flush_input env fuel tr = Some tr' →
  ∃ flushed r_zero,
    tr' = tr ++ flushed ++ [(Fionread, r_zero)]
    ∧ flushing flushed ∧ out_int r_zero = 0.
Proof.
  revert tr. induction fuel as [|fuel IH]; intros tr; [done|].
  cbn [flush_input sys snd]. cbv zeta.
  destruct (decide (out_int (env tr.*1 Fionread) ≠ 0)) as [Hn|Hz].
  - intros (flushed & r_zero & -> & Hfl & Hz)%IH.
    eexists ((Fionread, _) :: (Getchar, _) :: flushed), r_zero.
    split; [by rewrite <- !(assoc_L (++))|]. by split.
  - intros [= <-]. exists [], (env tr.*1 Fionread).
    split_and!; [done|done|].
    by destruct (decide (out_int (env tr.*1 Fionread) = 0)).
Qed.

Lemma raw_mode_bits t n :
  0 ≤ n →
  Z.testbit (c_lflag (raw_mode t)) n
  = Z.testbit (c_lflag t) n && negb (bool_decide (n = 1 ∨ n = 3)).
Proof.
  intros Hn. cbn [raw_mode c_lflag].
  rewrite Z.land_spec, Z.lnot_spec, Z.lor_spec by done. f_equal. f_equal.
  unfold ICANON, ECHO.
  destruct (decide (n = 1)) as [->|]; [done|].
  destruct (decide (n = 3)) as [->|]; [done|].
  rewrite bool_decide_eq_false_2 by lia.
  destruct (decide (n = 0)) as [->|]; [done|].
  destruct (decide (n = 2)) as [->|]; [done|].
  rewrite !(Z.bits_above_log2 _ n); [done|done| |done|]; cbn; lia.
Qed.

(** X14: the flush discipline of [_getch].  A call that returns has saved the
    terminal settings, switched canonical mode and echo off (every other
    flag and field as saved), read and dropped one byte after every query
    that reported waiting bytes, returned the byte read right after the
    first query that reported none, and put the saved settings back as its
    last call. *)
Theorem getch_flushes_then_reads env fuel tr0 ch tr :
  _getch env fuel tr0 = Some (ch, tr) →
  ∃ r_get r_raw r_buf flushed r_zero r_ch r_old,
    tr = tr0
         ++ (Tcgetattr, r_get)
         :: (Tcsetattr (raw_mode (out_termios r_get)), r_raw)
         :: (Setbuf, r_buf)
         :: flushed
         ++ [(Fionread, r_zero); (Getchar, r_ch);
             (Tcsetattr (out_termios r_get), r_old)]
    ∧ flushing flushed
    ∧ out_int r_zero = 0
    ∧ ch = out_int r_ch
    ∧ c_other (raw_mode (out_termios r_get)) = c_other (out_termios r_get)
    ∧ ∀ n, 0 ≤ n →
        Z.testbit (c_lflag (raw_mode (out_termios r_get))) n
        = Z.testbit (c_lflag (out_termios r_get)) n
          && negb (bool_decide (n = 1 ∨ n = 3)).
Proof.
  unfold _getch. cbn [sys]. cbv zeta.
  destruct (flush_input _ _ _) as [tr4|] eqn:Hflush; [|done].
  apply flush_input_trace in Hflush as (flushed & r_zero & -> & Hfl & Hz).
  intros [= <- <-].
  eexists _, _, _, flushed, r_zero, _, _.
  split_and!; [|done|done|reflexivity|done|apply raw_mode_bits].
  rewrite <- !(assoc_L (++)). reflexivity.
Qed.

Lemma getch_flushes_then_reads_witness :
  let t0 := Termios 0x8a3b [] in
  let env := tty t0 [97; 98] [99] in
  ∃ tr,
    _getch env 3 [] = Some (99, tr)
    ∧ ∃ r_get r_raw r_buf flushed r_zero r_ch r_old,
        tr = []
             ++ (Tcgetattr, r_get)
             :: (Tcsetattr (raw_mode (out_termios r_get)), r_raw)
             :: (Setbuf, r_buf)
             :: flushed
             ++ [(Fionread, r_zero); (Getchar, r_ch);
                 (Tcsetattr (out_termios r_get), r_old)]
        ∧ flushing flushed
        ∧ out_int r_zero = 0
        ∧ 99 = out_int r_ch
        ∧ c_other (raw_mode (out_termios r_get)) = c_other (out_termios r_get)
        ∧ ∀ n, 0 ≤ n →
            Z.testbit (c_lflag (raw_mode (out_termios r_get))) n
            = Z.testbit (c_lflag (out_termios r_get)) n
              && negb (bool_decide (n = 1 ∨ n = 3)).
Proof.
  intros t0 env.
  set (tr := from_option snd [] (_getch env 3 [])).
  assert (_getch env 3 [] = Some (99, tr)) as Hrun by (vm_compute; reflexivity).
  exists tr. split; [exact Hrun|].
  exact (getch_flushes_then_reads env 3 [] 99 tr Hrun).
Defined.

Lemma taken_snoc h c :
  taken (h ++ [c]) = (taken h + (if is_Getchar c then 1 else 0))%nat.
Proof.
  unfold taken. rewrite filter_app, length_app, filter_cons, filter_nil.
  destruct c; case_decide; cbn in *; done.
Qed.

Lemma current_mode_snoc t0 h c :
  current_mode t0 (h ++ [c])
  = match c with Tcsetattr t => t | _ => current_mode t0 h end.
Proof. unfold current_mode. by rewrite foldl_app. Qed.

Lemma trace_snoc (tr : sys_trace) c r : (tr ++ [(c, r)]).*1 = tr.*1 ++ [c].
Proof. by rewrite fmap_app. Qed.

(** On the scripted terminal the flush loop ends when the bytes that were
    waiting have been read. *)
Lemma flush_input_tty t0 typed later fuel tr :
  (taken tr.*1 ≤ length typed)%nat →
  (length typed - taken tr.*1 < fuel)%nat →
  ∃ tr',
    flush_input (tty t0 typed later) fuel tr = Some tr'
    ∧ taken tr'.*1 = length typed
    ∧ current_mode t0 tr'.*1 = current_mode t0 tr.*1.
Proof.
  revert tr. induction fuel as [|fuel IH]; intros tr Hle Hfuel; [lia|].
  cbn [flush_input sys snd tty out_int]. cbv zeta.
  destruct (decide (Z.of_nat (length typed - taken tr.*1) ≠ 0)) as [Hn|Hz].
  - set (r := SysReply t0 (Z.of_nat (length typed - taken tr.*1))).
    set (tr1 := tr ++ [(Fionread, r)]).
    destruct (IH (tr1 ++ [(Getchar, tty t0 typed later tr1.*1 Getchar)]))
      as (tr' & Hrun & Htaken & Hmode); subst tr1.
    + rewrite !trace_snoc, !taken_snoc. cbn. lia.
    + rewrite !trace_snoc, !taken_snoc. cbn. lia.
    + exists tr'. split_and!; [done..|].
      rewrite Hmode, !trace_snoc, !current_mode_snoc. done.
  - eexists. split_and!; [done|..].
    + rewrite trace_snoc, taken_snoc. cbn. lia.
    + by rewrite trace_snoc, current_mode_snoc.
Qed.

Lemma getch_tty t0 typed key later fuel tr0 :
  taken tr0.*1 = 0%nat →
  (length typed < fuel)%nat →
  ∃ tr,
    _getch (tty t0 typed (key :: later)) fuel tr0 = Some (key, tr)
    ∧ taken tr.*1 = S (length typed)
    ∧ current_mode t0 tr.*1 = current_mode t0 tr0.*1.
Proof.
  intros H0 Hfuel. unfold _getch. cbn [sys]. cbv zeta.
  match goal with
  | |- context [flush_input ?env fuel ?tr3] =>
      destruct (flush_input_tty t0 typed (key :: later) fuel tr3)
        as (tr4 & -> & Htaken & Hmode)
  end.
  { rewrite !trace_snoc, !taken_snoc. cbn. lia. }
  { rewrite !trace_snoc, !taken_snoc. cbn. lia. }
  eexists. split_and!.
  - cbn [tty out_int out_termios]. rewrite Htaken.
    rewrite lookup_app_r, Nat.sub_diag by done. reflexivity.
  - rewrite !trace_snoc, !taken_snoc, Htaken. cbn. lia.
  - rewrite !trace_snoc, !current_mode_snoc. done.
Qed.

(** X15: a key that [_kbhit] reports is lost to the [_getch] that follows.  On
    a terminal where the bytes [typed] are waiting, [_kbhit] returns their
    number and reads none of them; [_getch], called next, reads and drops
    all of them and returns [key], the first byte typed after them.  The
    terminal settings are then as they were before the two calls. *)
Theorem getch_after_kbhit_drops_typed_bytes t0 typed key later fuel :
  (length typed < fuel)%nat →
  ∃ tr1 tr2,
    _kbhit (tty t0 typed (key :: later)) [] = (Z.of_nat (length typed), tr1)
    ∧ taken tr1.*1 = 0%nat
    ∧ _getch (tty t0 typed (key :: later)) fuel tr1 = Some (key, tr2)
    ∧ taken tr2.*1 = S (length typed)
    ∧ current_mode t0 tr2.*1 = t0.
Proof.
  intros Hfuel.
  destruct (_kbhit (tty t0 typed (key :: later)) []) as [n tr1] eqn:Hk.
  unfold _kbhit in Hk. cbn [sys] in Hk. cbv zeta in Hk.
  injection Hk as Hn Htr.
  assert (taken tr1.*1 = 0%nat) as H0 by (by subst tr1).
  assert (current_mode t0 tr1.*1 = t0) as Hmode by (by subst tr1).
  destruct (getch_tty t0 typed key later fuel tr1 H0 Hfuel)
    as (tr2 & Hrun & Htaken & Hmode2).
  exists tr1, tr2. split_and!; [|done..|congruence].
  f_equal. rewrite <- Hn.
  assert (taken [Tcgetattr; Tcsetattr (raw_mode t0); Setbuf] = 0%nat) as ->
    by done.
  f_equal. lia.
Qed.

Lemma getch_after_kbhit_drops_typed_bytes_witness :
  ∃ tr1 tr2,
    _kbhit (tty (Termios 0x8a3b []) [97] (98 :: [])) []
    = (Z.of_nat (length [97]), tr1)
    ∧ taken tr1.*1 = 0%nat
    ∧ _getch (tty (Termios 0x8a3b []) [97] (98 :: [])) 2 tr1 = Some (98, tr2)
    ∧ taken tr2.*1 = S (length [97])
    ∧ current_mode (Termios 0x8a3b []) tr2.*1 = Termios 0x8a3b [].
Proof.
  assert (length [97] < 2)%nat as Hfuel by (vm_compute; lia).
  exact (getch_after_kbhit_drops_typed_bytes (Termios 0x8a3b []) [97] 98 [] 2
           Hfuel).
Defined.

(** ** Closing the session *)







(** ** Allocation and registration of the buffers *)

Ltac allocation_leaf :=
  unfold allocation_rule;
  cbn [prepend return_ events final out exit_code app];
  first
    [ left; split; [solve [forall_events]|reflexivity]
    | right; eexists _, _, _, _, _, _;
      split; [split_trace|];
      split; [done|];
      split; [solve [forall_events]|];
      split; [solve [buffer_use_events]|];
      first [ by intros ? | intros _; eexists _, _; reflexivity ] ].

Lemma main_allocation_rule drv stdin : allocation_rule (main drv stdin).
Proof. run_main drv Hpoll; allocation_leaf. Qed.

(** X8: the two sample buffers.  A run that ends before the buffers exist
    touches no buffer and returns -1.  Every other run allocates two
    different arrays of [NO_OF_SAMPLES] cells, one right after the other,
    having touched no buffer before, and at once registers the first for
    channel A with length [NO_OF_SAMPLES]; when that call succeeds, the next
    event registers the second for channel B with the same length.
    Afterwards nothing else is allocated or registered for another channel,
    and no other array is read or released. *)
Theorem sample_buffers_discipline drv stdin :
  (Forall no_buffer_event (events (main drv stdin))
   ∧ exit_code (main drv stdin) = Some (-1))
  ∨ ∃ pre handle bufferA bufferB r_a rest,
      events (main drv stdin)
      = pre ++ NewArray bufferA NO_OF_SAMPLES :: NewArray bufferB NO_OF_SAMPLES
            :: Drv (SetDataBuffer handle PS5000A_CHANNEL_A bufferA
                      NO_OF_SAMPLES 0 PS5000A_RATIO_MODE_NONE) r_a
            :: rest
      ∧ bufferA ≠ bufferB
      ∧ Forall no_buffer_event pre
      ∧ Forall (buffer_use bufferA bufferB) rest
      ∧ (status r_a = PICO_OK →
         ∃ r_b rest',
           rest = Drv (SetDataBuffer handle PS5000A_CHANNEL_B bufferB
                         NO_OF_SAMPLES 0 PS5000A_RATIO_MODE_NONE) r_b
                  :: rest').
Proof. exact (main_allocation_rule drv stdin). Qed.

(** ** Runs that stay inside the buffers *)






